(** * Verification of the memory system against its specification

    A shallow embedding of the Python sources (importance engine, relationship
    graph, maintenance runner, circuit breaker, vector store, cross-project
    sharing and prospective triggers) together with the properties the
    specification states about them.

    Conventions of the embedding:
    - a Python [str] is a [string] whose characters are bytes; the case and
      whitespace helpers follow Python on the ASCII range;
    - a Python [int] is a [Z]; the keyword scores, edge strengths and clock
      readings that Python holds in a [float] are exact rationals ([Q]);
    - where a property turns on rounding, overflow or NaN, a float is an
      IEEE 754 value ([spec_float]) and each operation rounds to nearest
      even: the importance of a stored record is a binary64 [float], the
      components of an embedding are numpy [float32] values;
    - a Python dict is a [gmap]; a SQLite table is the list of its rows in
      insertion order, with its constraints checked by the insert;
    - the clock and the UUID generator are inputs of the operations that read
      them; an exception is a value of the result type. *)

From Stdlib Require Import ZArith QArith Qpower Qminmax Lqa SpecFloat.
From Stdlib Require Import List String Ascii Bool Lia DecimalString.
From stdpp Require Import base option list gmap strings sorting.
Import ListNotations.

Local Open Scope string_scope.
Local Open Scope Z_scope.

(** ** Python string primitives *)

Module PyStr.

Definition code (c : ascii) : Z := Z.of_N (N_of_ascii c).

Definition chr (z : Z) : ascii := ascii_of_N (Z.to_N z).

Definition is_ascii_upper (c : ascii) : bool :=
  (65 <=? code c) && (code c <=? 90).

Definition is_ascii_lower (c : ascii) : bool :=
  (97 <=? code c) && (code c <=? 122).

(** [str.isspace] on one character: TAB, LF, VT, FF, CR, FS, GS, RS, US and
    the space. *)
Definition is_space (c : ascii) : bool :=
  ((9 <=? code c) && (code c <=? 13))
  || ((28 <=? code c) && (code c <=? 32)).

Definition lower_char (c : ascii) : ascii :=
  if is_ascii_upper c then chr (code c + 32) else c.

(** [s.lower()] *)
Fixpoint lower (s : string) : string :=
  match s with
  | EmptyString => EmptyString
  | String c s' => String (lower_char c) (lower s')
  end.

(** [len(s)] *)
Definition len (s : string) : Z := Z.of_nat (String.length s).

(** [s.startswith(p)] *)
Fixpoint startswith (p s : string) : bool :=
  match p, s with
  | EmptyString, _ => true
  | String _ _, EmptyString => false
  | String a p', String b s' =>
      if Ascii.eqb a b then startswith p' s' else false
  end.

(** [sub in s] *)
Fixpoint contains (sub s : string) : bool :=
  if startswith sub s then true
  else match s with
       | EmptyString => false
       | String _ s' => contains sub s'
       end.

(** [s.count(c)] for a one-character [c] *)
Fixpoint count_char (c : ascii) (s : string) : Z :=
  match s with
  | EmptyString => 0
  | String a s' => (if Ascii.eqb a c then 1 else 0) + count_char c s'
  end.

(** [s.split()] with no separator: the maximal runs of non-whitespace.  [cur]
    holds the characters of the run being read, last one first. *)
Fixpoint rev_string (acc s : string) : string :=
  match s with
  | EmptyString => acc
  | String c s' => rev_string (String c acc) s'
  end.

Definition flush (cur : string) : list string :=
  match cur with
  | EmptyString => []
  | _ => [rev_string EmptyString cur]
  end.

Fixpoint split_from (cur s : string) : list string :=
  match s with
  | EmptyString => flush cur
  | String c s' =>
      if is_space c then flush cur ++ split_from EmptyString s'
      else split_from (String c cur) s'
  end.

Definition split (s : string) : list string := split_from EmptyString s.

(** [s.isupper()]: some cased character, and no lower-case one. *)
Fixpoint has_upper (s : string) : bool :=
  match s with
  | EmptyString => false
  | String c s' => is_ascii_upper c || has_upper s'
  end.

Fixpoint has_lower (s : string) : bool :=
  match s with
  | EmptyString => false
  | String c s' => is_ascii_lower c || has_lower s'
  end.

Definition isupper (s : string) : bool := has_upper s && negb (has_lower s).

(** [sep.join(parts)] *)
Fixpoint join (sep : string) (parts : list string) : string :=
  match parts with
  | [] => EmptyString
  | [p] => p
  | p :: rest => p ++ sep ++ join sep rest
  end.

(** Truthiness of a string: [if s:] *)
Definition truthy (s : string) : bool :=
  match s with EmptyString => false | _ => true end.

(** Python's ordering of strings, by code point. *)
Fixpoint leb (a b : string) : bool :=
  match a, b with
  | EmptyString, _ => true
  | String _ _, EmptyString => false
  | String x a', String y b' =>
      if code x <? code y then true
      else if code y <? code x then false
      else leb a' b'
  end.

(** [str * n] *)
Fixpoint repeat_str (s : string) (n : nat) : string :=
  match n with
  | O => EmptyString
  | S n' => s ++ repeat_str s n'
  end.

End PyStr.

(** ** Comparisons of Python floats, read as exact rationals *)

Module PyFloat.

(** [a < b] *)
Definition ltb (a b : Q) : bool := negb (Qle_bool b a).

(** [a <= b] *)
Definition leb (a b : Q) : bool := Qle_bool a b.

(** [a == b] *)
Definition eqb (a b : Q) : bool := Qeq_bool a b.

End PyFloat.

(** ** IEEE 754 floats *)

Module Float.

Definition float : Type := spec_float.

(** [0.0] *)
Definition zero : float := S754_zero false.

Definition is_nan (x : float) : bool :=
  match x with S754_nan => true | _ => false end.

Definition is_zero (x : float) : bool :=
  match x with S754_zero _ => true | _ => false end.

(** Neither an infinity nor NaN. *)
Definition is_finite (x : float) : bool :=
  match x with S754_zero _ | S754_finite _ _ _ => true | _ => false end.

(** [a < b], [a <= b] and [a == b]; each is false when an operand is NaN. *)
Definition ltb (a b : float) : bool := SFltb a b.

Definition leb (a b : float) : bool := SFleb a b.

Definition eqb (a b : float) : bool := SFeqb a b.


End Float.

(** Python's [float]: binary64. *)
Module Float64.

Definition of_Z (n : Z) : Float.float := binary_normalize 53 1024 n 0 false.

Definition mul (a b : Float.float) : Float.float := SFmul 53 1024 a b.

Definition div (a b : Float.float) : Float.float := SFdiv 53 1024 a b.

(** The literal that reads [n / d] in decimal, for integers below [2 ^ 53]:
    the binary64 value nearest to the quotient. *)
Definition decimal (n d : Z) : Float.float := div (of_Z n) (of_Z d).

(** [float(x)] for a numpy [float32]: the same value as a binary64. *)
Definition of_float32 (x : Float.float) : Float.float :=
  match x with
  | S754_finite s m e => binary_round 53 1024 s m e
  | _ => x
  end.

(** [max(a, b)]: [b] when [b > a], else [a]. *)
Definition max (a b : Float.float) : Float.float := if Float.ltb a b then b else a.

(** A stand-in for C's [pow] on a float and an int that is not negative:
    the products taken one by one, each rounded.  The operations that call
    [**] take the power function as an argument; this one is used where a
    value has to be computed. *)
Fixpoint pow_nat (x : Float.float) (n : nat) : Float.float :=
  match n with
  | O => of_Z 1
  | S n' => mul x (pow_nat x n')
  end.

Definition pow (x : Float.float) (n : Z) : Float.float := pow_nat x (Z.to_nat n).

End Float64.

(** numpy's [float32]: binary32. *)
Module Float32.

(** The cast to [float32]: rounded, an overflow gives an infinity. *)
Definition of_float (x : Float.float) : Float.float :=
  match x with
  | S754_finite s m e => binary_round 24 128 s m e
  | _ => x
  end.

Definition add (a b : Float.float) : Float.float := SFadd 24 128 a b.

Definition mul (a b : Float.float) : Float.float := SFmul 24 128 a b.

Definition div (a b : Float.float) : Float.float := SFdiv 24 128 a b.

Definition sqrt (a : Float.float) : Float.float := SFsqrt 24 128 a.

End Float32.

(** ** importance_engine.py *)

Module ImportanceEngine.

Local Open Scope Q_scope.

(** [IMPORTANCE_SIGNALS], in the order of the dict literal. *)
Definition IMPORTANCE_SIGNALS : list (string * Q) :=
  [ ("critical"%string, 3 # 10); ("urgent"%string, 25 # 100);
    ("breaking"%string, 25 # 100); ("production"%string, 2 # 10);
    ("pattern"%string, 15 # 100); ("across"%string, 1 # 10);
    ("clients"%string, 1 # 10); ("mistake"%string, 15 # 100);
    ("failed"%string, 15 # 100); ("success"%string, 1 # 10) ].

(** The loop over the signal keywords, started from [score]. *)
Definition add_signals (content_lower : string) (score : Q) : Q :=
  fold_left
    (fun sc kw => if PyStr.contains (fst kw) content_lower then sc + snd kw else sc)
    IMPORTANCE_SIGNALS score.

(** The [if word_count > 50: ... elif word_count > 100: ...] statement: what
    it adds to the score. *)
Definition length_bonus (word_count : Z) : Q :=
  if (50 <? word_count)%Z then 1 # 10
  else if (100 <? word_count)%Z then 2 # 10
  else 0.

Definition word_count (content : string) : Z :=
  Z.of_nat (List.length (PyStr.split content)).

Definition caps_words (content : string) : Z :=
  Z.of_nat
    (List.length
       (List.filter (fun w => PyStr.isupper w && (2 <? PyStr.len w)%Z)
          (PyStr.split content))).

Definition sentence_count (content : string) : Z :=
  (PyStr.count_char "." content + PyStr.count_char "!" content
   + PyStr.count_char "?" content)%Z.

(** The score before the final [min(1.0, max(0.3, score))]. *)
Definition raw_score (content : string) : Q :=
  let score := add_signals (PyStr.lower content) (5 # 10) in
  let score := score + length_bonus (word_count content) in
  let score := if PyStr.contains "!" content then score + (5 # 100) else score in
  let score :=
    if (0 <? caps_words content)%Z
    then score + Qmin (1 # 10) (inject_Z (caps_words content) * (5 # 100))
    else score in
  if (2 <? sentence_count content)%Z then score + (5 # 100) else score.

Definition calculate_importance (content : string) : Q :=
  if negb (PyStr.truthy content) then 3 # 10
  else Qmin 1 (Qmax (3 # 10) (raw_score content)).

Section Decay.

(** [**] on a float and an int is C's [pow]; it is an argument here, so that
    what is proved holds whatever the library rounds to. *)
Variable pow : Float.float -> Z -> Float.float.

(** [apply_decay]: [max(0.0, importance * 0.99 ** days_since)], in binary64. *)
Definition apply_decay (importance : Float.float) (days_since : Z) : Float.float :=
  let days_since := if (days_since <? 0)%Z then 0%Z else days_since in
  let decay_rate := Float64.decimal 99 100 in
  let multiplier := pow decay_rate days_since in
  let decayed := Float64.mul importance multiplier in
  Float64.max Float.zero decayed.

End Decay.

(** [apply_reinforcement]: [min(0.95, importance * 1.15)]. *)
Definition apply_reinforcement (importance : Q) : Q :=
  Qmin (95 # 100) (importance * (115 # 100)).

End ImportanceEngine.

(** ** circuit_breaker.py *)

Module CircuitBreaker.

Local Open Scope Q_scope.

(** The three values of [_state]. *)
Inductive State : Type := CLOSED | OPEN | HALF_OPEN.

Definition State_eqb (a b : State) : bool :=
  match a, b with
  | CLOSED, CLOSED | OPEN, OPEN | HALF_OPEN, HALF_OPEN => true
  | _, _ => false
  end.

(** The attributes of a breaker, except the lock. *)
Record t : Type := mk {
  failure_threshold : Z;
  recovery_timeout : Q;
  name : string;
  _state : State;
  _failure_count : Z;
  _last_failure_time : Q
}.

(** [CircuitBreaker.__init__] *)
Definition init (failure_threshold : Z) (recovery_timeout : Q) (name : string) : t :=
  {| failure_threshold := failure_threshold;
     recovery_timeout := recovery_timeout;
     name := name;
     _state := CLOSED;
     _failure_count := 0;
     _last_failure_time := 0 |}.

Definition set_state (s : State) (b : t) : t :=
  {| failure_threshold := failure_threshold b;
     recovery_timeout := recovery_timeout b;
     name := name b;
     _state := s;
     _failure_count := _failure_count b;
     _last_failure_time := _last_failure_time b |}.

(** The [state] property, read when [time.monotonic()] is [now]: the value it
    returns and the breaker it leaves. *)
Definition state (now : Q) (b : t) : State * t :=
  if State_eqb (_state b) OPEN
     && PyFloat.ltb 0 (_last_failure_time b)
     && PyFloat.leb (recovery_timeout b) (now - _last_failure_time b)
  then (HALF_OPEN, set_state HALF_OPEN b)
  else (_state b, b).

(** [failure_count] property *)
Definition failure_count (b : t) : Z := _failure_count b.

(** [_on_failure], when [time.monotonic()] reads [now]. *)
Definition _on_failure (now : Q) (b : t) : t :=
  let count := (_failure_count b + 1)%Z in
  {| failure_threshold := failure_threshold b;
     recovery_timeout := recovery_timeout b;
     name := name b;
     _state := if (failure_threshold b <=? count)%Z then OPEN else _state b;
     _failure_count := count;
     _last_failure_time := now |}.

(** [_on_success] *)
Definition _on_success (b : t) : t :=
  {| failure_threshold := failure_threshold b;
     recovery_timeout := recovery_timeout b;
     name := name b;
     _state := CLOSED;
     _failure_count := 0;
     _last_failure_time := _last_failure_time b |}.

(** [str(n)] for an [int]. *)
Definition str_of_int (n : Z) : string :=
  DecimalString.NilZero.string_of_int (Z.to_int n).

(** The text of the [CircuitBreakerOpenError]. *)
Definition open_message (b : t) : string :=
  ("Circuit breaker '" ++ name b ++ "' is OPEN ("
   ++ str_of_int (_failure_count b) ++ " consecutive failures)")%string.

(** How [call] ends: [fn]'s value, [fn]'s exception raised again, or the
    breaker's own error. *)
Inductive CallResult (A E : Type) : Type :=
| Returned (result : A)
| Reraised (exc : E)
| CircuitBreakerOpenError (message : string).
Arguments Returned {A E} result.
Arguments Reraised {A E} exc.
Arguments CircuitBreakerOpenError {A E} message.

(** [call].  The wrapped function acts on a world [W] and either returns
    ([inl]) or raises an [Exception] ([inr]); [now] is the clock when the
    state is read and [later] the clock when a failure is recorded. *)
Definition call {W A E : Type} (fn : W -> (A + E) * W) (now later : Q)
    (b : t) (w : W) : CallResult A E * t * W :=
  let '(current, b) := state now b in
  if State_eqb current OPEN then (CircuitBreakerOpenError (open_message b), b, w)
  else
    match fn w with
    | (inr exc, w') => (Reraised exc, _on_failure later b, w')
    | (inl result, w') => (Returned result, _on_success b, w')
    end.

(** The parts of what [call] leaves. *)
Definition result_of {W A E : Type} (r : CallResult A E * t * W) : CallResult A E := fst (fst r).
Definition breaker_of {W A E : Type} (r : CallResult A E * t * W) : t := snd (fst r).
Definition world_of {W A E : Type} (r : CallResult A E * t * W) : W := snd r.

(** The wrapped function raises, or returns, whatever the world it runs in. *)
Definition fails {W A E : Type} (fn : W -> (A + E) * W) : Prop :=
  forall w, exists exc w', fn w = (inr exc, w').

Definition succeeds {W A E : Type} (fn : W -> (A + E) * W) : Prop :=
  forall w, exists result w', fn w = (inl result, w').

(** [record_failure], [record_success], [reset] *)
Definition record_failure (now : Q) (b : t) : t := _on_failure now b.

Definition record_success (b : t) : t := _on_success b.

Definition reset (b : t) : t :=
  {| failure_threshold := failure_threshold b;
     recovery_timeout := recovery_timeout b;
     name := name b;
     _state := CLOSED;
     _failure_count := 0;
     _last_failure_time := 0 |}.

End CircuitBreaker.

(** ** hashlib.md5, as used for relationship ids *)

Module MD5.

Definition add32 (a b : Z) : Z := (a + b) mod 2 ^ 32.

Definition not32 (a : Z) : Z := Z.lxor a 0xffffffff.

Definition rotl32 (x c : Z) : Z :=
  Z.lor (Z.shiftl x c mod 2 ^ 32) (Z.shiftr x (32 - c)).

(** Per-round shift amounts. *)
Definition S_table : list Z :=
  [ 7; 12; 17; 22; 7; 12; 17; 22; 7; 12; 17; 22; 7; 12; 17; 22;
    5; 9; 14; 20; 5; 9; 14; 20; 5; 9; 14; 20; 5; 9; 14; 20;
    4; 11; 16; 23; 4; 11; 16; 23; 4; 11; 16; 23; 4; 11; 16; 23;
    6; 10; 15; 21; 6; 10; 15; 21; 6; 10; 15; 21; 6; 10; 15; 21 ].

(** [floor(2^32 * abs(sin(i + 1)))] *)
Definition K_table : list Z :=
  [ 0xd76aa478; 0xe8c7b756; 0x242070db; 0xc1bdceee;
    0xf57c0faf; 0x4787c62a; 0xa8304613; 0xfd469501;
    0x698098d8; 0x8b44f7af; 0xffff5bb1; 0x895cd7be;
    0x6b901122; 0xfd987193; 0xa679438e; 0x49b40821;
    0xf61e2562; 0xc040b340; 0x265e5a51; 0xe9b6c7aa;
    0xd62f105d; 0x02441453; 0xd8a1e681; 0xe7d3fbc8;
    0x21e1cde6; 0xc33707d6; 0xf4d50d87; 0x455a14ed;
    0xa9e3e905; 0xfcefa3f8; 0x676f02d9; 0x8d2a4c8a;
    0xfffa3942; 0x8771f681; 0x6d9d6122; 0xfde5380c;
    0xa4beea44; 0x4bdecfa9; 0xf6bb4b60; 0xbebfbc70;
    0x289b7ec6; 0xeaa127fa; 0xd4ef3085; 0x04881d05;
    0xd9d4d039; 0xe6db99e5; 0x1fa27cf8; 0xc4ac5665;
    0xf4292244; 0x432aff97; 0xab9423a7; 0xfc93a039;
    0x655b59c3; 0x8f0ccc92; 0xffeff47d; 0x85845dd1;
    0x6fa87e4f; 0xfe2ce6e0; 0xa3014314; 0x4e0811a1;
    0xf7537e82; 0xbd3af235; 0x2ad7d2bb; 0xeb86d391 ].

Definition bytes_of_string (s : string) : list Z :=
  List.map PyStr.code (list_ascii_of_string s).

(** [n] as [k] little-endian bytes. *)
Fixpoint le_bytes (k : nat) (n : Z) : list Z :=
  match k with
  | O => []
  | S k' => n mod 256 :: le_bytes k' (n / 256)
  end.

(** The message, the 0x80 byte, zeros up to 56 modulo 64, and the bit length
    on 64 bits. *)
Definition pad (msg : list Z) : list Z :=
  let n := Z.of_nat (List.length msg) in
  msg ++ [0x80] ++ List.repeat 0 (Z.to_nat ((55 - n) mod 64))
      ++ le_bytes 8 ((8 * n) mod 2 ^ 64).

(** Little-endian 32-bit words of a byte list. *)
Fixpoint words (fuel : nat) (bs : list Z) : list Z :=
  match fuel, bs with
  | S fuel', b0 :: b1 :: b2 :: b3 :: rest =>
      (b0 + 256 * b1 + 65536 * b2 + 16777216 * b3) :: words fuel' rest
  | _, _ => []
  end.

Fixpoint blocks (fuel : nat) (ws : list Z) : list (list Z) :=
  match fuel, ws with
  | S fuel', _ :: _ => List.firstn 16 ws :: blocks fuel' (List.skipn 16 ws)
  | _, _ => []
  end.

Definition round (M : list Z) (st : Z * Z * Z * Z) (i : nat) : Z * Z * Z * Z :=
  let '(A, B, C, D) := st in
  let iz := Z.of_nat i in
  let '(F, g) :=
    if iz <? 16 then (Z.lor (Z.land B C) (Z.land (not32 B) D), iz)
    else if iz <? 32 then (Z.lor (Z.land D B) (Z.land (not32 D) C), (5 * iz + 1) mod 16)
    else if iz <? 48 then (Z.lxor (Z.lxor B C) D, (3 * iz + 5) mod 16)
    else (Z.lxor C (Z.lor B (not32 D)), (7 * iz) mod 16) in
  let F := add32 (add32 (add32 F A) (List.nth i K_table 0)) (List.nth (Z.to_nat g) M 0) in
  (D, add32 B (rotl32 F (List.nth i S_table 0)), B, C).

Definition process_block (h : Z * Z * Z * Z) (M : list Z) : Z * Z * Z * Z :=
  let '(a0, b0, c0, d0) := h in
  let '(A, B, C, D) := List.fold_left (round M) (List.seq 0 64) h in
  (add32 a0 A, add32 b0 B, add32 c0 C, add32 d0 D).

Definition digest (msg : list Z) : list Z :=
  let padded := pad msg in
  let ws := words (List.length padded) padded in
  let '(a, b, c, d) :=
    List.fold_left process_block (blocks (List.length ws) ws)
      (0x67452301, 0xefcdab89, 0x98badcfe, 0x10325476) in
  le_bytes 4 a ++ le_bytes 4 b ++ le_bytes 4 c ++ le_bytes 4 d.

Definition hex_digit (n : Z) : ascii :=
  if n <? 10 then PyStr.chr (48 + n) else PyStr.chr (87 + n).

Fixpoint hex_of_bytes (bs : list Z) : string :=
  match bs with
  | [] => EmptyString
  | b :: rest => String (hex_digit (b / 16)) (String (hex_digit (b mod 16)) (hex_of_bytes rest))
  end.

(** [hashlib.md5(s.encode()).hexdigest()] *)
Definition hexdigest (s : string) : string := hex_of_bytes (digest (bytes_of_string s)).

End MD5.

(** ** Results of operations that can raise *)

Inductive result (E A : Type) : Type :=
| Ok (value : A)
| Raise (exc : E).
Arguments Ok {E A} value.
Arguments Raise {E A} exc.

(** ** The fragment of SQL that the relationship queries are written in *)

Module Sql.

(** A WHERE clause as SQLite reads it: [OR] binds weaker than [AND], and each
    operand is [column = ?].  The clause is kept as the alternatives of the
    [OR], each the list of the [AND]ed comparisons, a comparison being a
    column and the position of its [?] among the bound parameters. *)
Definition comparison : Type := string * nat.
Definition where_expr : Type := list (list comparison).

(** Words of a clause, separated by blanks. *)
Definition tokens (clause : string) : list string := PyStr.split clause.

(** [split_on kw ts]: the runs of [ts] between the occurrences of [kw]. *)
Fixpoint split_on (kw : string) (cur : list string) (ts : list string) : list (list string) :=
  match ts with
  | [] => [List.rev cur]
  | w :: rest =>
      if String.eqb w kw then List.rev cur :: split_on kw [] rest
      else split_on kw (w :: cur) rest
  end.

Definition is_keyword (w : string) : bool :=
  String.eqb w "OR" || String.eqb w "AND" || String.eqb w "=" || String.eqb w "?".

(** One operand: exactly [column = ?]; [n] is the number of [?] read so far. *)
Definition parse_comparison (n : nat) (ts : list string) : option comparison :=
  match ts with
  | [col; eq; q] =>
      if negb (is_keyword col) && String.eqb eq "=" && String.eqb q "?"
      then Some (col, n) else None
  | _ => None
  end.

Fixpoint parse_conjunction (n : nat) (operands : list (list string))
  : option (list comparison * nat) :=
  match operands with
  | [] => Some ([], n)
  | ts :: rest =>
      match parse_comparison n ts with
      | None => None
      | Some c =>
          match parse_conjunction (S n) rest with
          | None => None
          | Some (cs, n') => Some (c :: cs, n')
          end
      end
  end.

Fixpoint parse_disjunction (n : nat) (alternatives : list (list string))
  : option (where_expr * nat) :=
  match alternatives with
  | [] => Some ([], n)
  | ts :: rest =>
      match parse_conjunction n (split_on "AND" [] ts) with
      | None => None
      | Some (cs, n') =>
          match parse_disjunction n' rest with
          | None => None
          | Some (e, n'') => Some (cs :: e, n'')
          end
      end
  end.

(** The parsed clause and the number of parameters it takes, or [None] for a
    syntax error. *)
Definition parse_where (clause : string) : option (where_expr * nat) :=
  parse_disjunction 0 (split_on "OR" [] (tokens clause)).

Section Eval.
Context {Row : Type} (column : Row -> string -> option string).

Definition eval_comparison (params : list string) (r : Row) (c : comparison) : bool :=
  match column r (fst c), List.nth_error params (snd c) with
  | Some v, Some p => String.eqb v p
  | _, _ => false
  end.

Definition eval_where (e : where_expr) (params : list string) (r : Row) : bool :=
  List.existsb (List.forallb (eval_comparison params r)) e.

End Eval.

(** Every column the clause names is one of the table's. *)
Definition columns_known (schema : list string) (e : where_expr) : bool :=
  List.forallb
    (List.forallb (fun c : comparison => List.existsb (String.eqb (fst c)) schema)) e.

(** [ORDER BY]: insertion sort by a "comes before or ties" test, rows that
    tie staying in table order. *)
Fixpoint insert_sorted {A : Type} (before : A -> A -> bool) (x : A) (l : list A) : list A :=
  match l with
  | [] => [x]
  | y :: l' => if before x y then x :: l else y :: insert_sorted before x l'
  end.

Definition order_by {A : Type} (before : A -> A -> bool) (l : list A) : list A :=
  List.fold_right (insert_sorted before) [] l.

End Sql.

(** ** intelligence/relationship_mapper.py *)

Module RelationshipMapper.

Local Open Scope Q_scope.

(** A row of [memory_relationships]; also the [MemoryRelationship] dataclass
    built from it ([created_at] kept as the stored epoch seconds). *)
Record MemoryRelationship : Type := mkRel {
  id : string;
  from_memory_id : string;
  to_memory_id : string;
  relationship_type : string;
  strength : Q;
  evidence : string;
  created_at : Z
}.

(** The table, rows in insertion order. *)
Definition table : Type := list MemoryRelationship.

Inductive exn : Type := ValueError | OperationalError | ProgrammingError.

Definition valid_types : list string :=
  ["causal"; "contradicts"; "supports"; "requires"; "related"]%string.

Definition str_in (s : string) (l : list string) : bool := List.existsb (String.eqb s) l.

(** [hashlib.md5(f"{from_id}{to_id}{relationship_type}".encode()).hexdigest()[:16]] *)
Definition rel_id (from_id to_id relationship_type : string) : string :=
  String.substring 0 16 (MD5.hexdigest (from_id ++ to_id ++ relationship_type)%string).

Definition same_key (a b : MemoryRelationship) : bool :=
  String.eqb (from_memory_id a) (from_memory_id b)
  && String.eqb (to_memory_id a) (to_memory_id b)
  && String.eqb (relationship_type a) (relationship_type b).

(** The row violates [PRIMARY KEY (id)] or
    [UNIQUE (from_memory_id, to_memory_id, relationship_type)]. *)
Definition conflicts (r : MemoryRelationship) (db : table) : bool :=
  List.existsb (fun x => String.eqb (id x) (id r) || same_key x r) db.

(** [INSERT OR IGNORE] *)
Definition insert_or_ignore (r : MemoryRelationship) (db : table) : table :=
  if conflicts r db then db else (db ++ [r])%list.

(** [link_memories]; [now] is [int(datetime.now().timestamp())]. *)
Definition link_memories (db : table) (now : Z)
    (from_id to_id relationship_type evidence : string) (strength : Q)
  : result exn string * table :=
  if negb (str_in relationship_type valid_types) then (Raise ValueError, db)
  else if negb (PyFloat.leb 0 strength && PyFloat.leb strength 1) then (Raise ValueError, db)
  else
    let rel_id := rel_id from_id to_id relationship_type in
    (Ok rel_id,
     insert_or_ignore
       {| id := rel_id; from_memory_id := from_id; to_memory_id := to_id;
          relationship_type := relationship_type; strength := strength;
          evidence := evidence; created_at := now |} db).

Definition schema : list string :=
  ["id"; "from_memory_id"; "to_memory_id"; "relationship_type"; "strength";
   "evidence"; "created_at"]%string.

(** The text columns a WHERE clause of this module compares. *)
Definition column (r : MemoryRelationship) (c : string) : option string :=
  if String.eqb c "id" then Some (id r)
  else if String.eqb c "from_memory_id" then Some (from_memory_id r)
  else if String.eqb c "to_memory_id" then Some (to_memory_id r)
  else if String.eqb c "relationship_type" then Some (relationship_type r)
  else if String.eqb c "evidence" then Some (evidence r)
  else None.

(** [ORDER BY strength DESC, created_at DESC] *)
Definition comes_before (a b : MemoryRelationship) : bool :=
  PyFloat.ltb (strength b) (strength a)
  || (PyFloat.eqb (strength a) (strength b) && (created_at b <=? created_at a)%Z).

(** [SELECT ... FROM memory_relationships WHERE {where_clause} ORDER BY ...]
    with [params] bound to its [?]s. *)
Definition select_where (db : table) (where_clause : string) (params : list string)
  : result exn (list MemoryRelationship) :=
  match Sql.parse_where where_clause with
  | None => Raise OperationalError
  | Some (e, n) =>
      if negb (Sql.columns_known schema e) then Raise OperationalError
      else if negb (Nat.eqb n (List.length params)) then Raise ProgrammingError
      else Ok (Sql.order_by comes_before (List.filter (Sql.eval_where column e params) db))
  end.

(** [get_related_memories] *)
Definition get_related_memories (db : table) (memory_id : string)
    (relationship_type : option string) (direction : string)
  : result exn (list (string * MemoryRelationship)) :=
  let conditions : list string := [] in
  let params : list string := [] in
  let '(conditions, params) :=
    if str_in direction ["from"; "both"]%string
    then ((conditions ++ ["from_memory_id = ?"%string])%list, (params ++ [memory_id])%list)
    else (conditions, params) in
  let '(conditions, params) :=
    if str_in direction ["to"; "both"]%string
    then
      ((match conditions with
        | _ :: _ => (conditions ++ ["OR to_memory_id = ?"%string])%list
        | [] => (conditions ++ ["to_memory_id = ?"%string])%list
        end),
       (params ++ [memory_id])%list)
    else (conditions, params) in
  let where_clause := PyStr.join " OR " conditions in
  let '(where_clause, params) :=
    match relationship_type with
    | Some rt =>
        if PyStr.truthy rt
        then ((where_clause ++ " AND relationship_type = ?")%string, (params ++ [rt])%list)
        else (where_clause, params)
    | None => (where_clause, params)
    end in
  match select_where db where_clause params with
  | Raise e => Raise e
  | Ok rows =>
      Ok (List.map
            (fun row =>
               let related_id :=
                 if String.eqb (from_memory_id row) memory_id
                 then to_memory_id row else from_memory_id row in
               (related_id, row))
            rows)
  end.

(** [detect_contradictions] *)
Definition detect_contradictions (db : table) (memory_id : string)
  : result exn (list (string * MemoryRelationship)) :=
  get_related_memories db memory_id (Some "contradicts"%string) "both".

(** The rows keyed [(from_id, to_id, kind)]. *)
Definition has_key (from_id to_id kind : string) (x : MemoryRelationship) : bool :=
  String.eqb (from_memory_id x) from_id && String.eqb (to_memory_id x) to_id
  && String.eqb (relationship_type x) kind.

Definition edges_keyed (db : table) (from_id to_id kind : string) : table :=
  List.filter (has_key from_id to_id kind) db.

(** The table constraints: no two rows share an id or a key. *)
Fixpoint constraints_hold (db : table) : Prop :=
  match db with
  | [] => True
  | r :: rest =>
      List.existsb (fun x => String.eqb (id x) (id r) || same_key x r) rest = false
      /\ constraints_hold rest
  end.

End RelationshipMapper.

(** ** The record store client used by the maintenance runner *)

Module MemoryTSClient.

(** Modelled from the spec: memory_ts_client.py, the client of the record
    store (§4.B), is not among the sources.  A [Memory] carries the fields of
    a record (§3) that the maintenance runner reads; [created] is the instant
    that [datetime.fromisoformat(memory.created)] denotes, in seconds, and
    [None] when that call raises [ValueError]. *)
Record Memory : Type := mkMemory {
  id : string;
  content : string;
  project_id : string;
  importance : Float.float;
  status : string;
  tags : list string;
  created : option Z
}.

(** Modelled from the spec: the store holds one record per id (one file
    [{id}.md] each); here the list of its records. *)
Definition store : Type := list Memory.

(** [status == "active"] *)
Definition is_active (m : Memory) : bool := String.eqb (status m) "active".

(** Modelled from the spec: [client.search()] with no filter is the default
    search; it "returns all active records unless explicitly asked
    otherwise" (§4.B), and "archived records are never returned by default
    searches" (§3). *)
Definition search (st : store) : list Memory := List.filter is_active st.

(** Modelled from the spec: [client.update(id, patch)] rewrites the record
    whose id is [id] with the patched fields and leaves the others. *)
Definition update (memory_id : string) (patch : Memory -> Memory) (st : store) : store :=
  List.map (fun m => if String.eqb (id m) memory_id then patch m else m) st.

Definition set_importance (x : Float.float) (m : Memory) : Memory :=
  {| id := id m; content := content m; project_id := project_id m;
     importance := x; status := status m; tags := tags m; created := created m |}.

Definition set_status_tags (s : string) (ts : list string) (m : Memory) : Memory :=
  {| id := id m; content := content m; project_id := project_id m;
     importance := importance m; status := s; tags := ts; created := created m |}.

End MemoryTSClient.

(** ** daily_memory_maintenance.py *)

Module Maintenance.

Import MemoryTSClient.

(** [(now - created_dt).days] for clock readings in seconds. *)
Definition days_between (now created_dt : Z) : Z := ((now - created_dt) / 86400)%Z.

(** [memory.importance < threshold and memory.status == "active"] *)
Definition low_active (threshold : Float.float) (memory : Memory) : bool :=
  Float.ltb (importance memory) threshold && String.eqb (status memory) "active".


(** One turn of the loop of [archive_low_importance]. *)
Definition archive_step (threshold : Float.float) (acc : Z * store) (memory : Memory)
  : Z * store :=
  let '(archived_count, st) := acc in
  if low_active threshold memory
  then
    let tags := match tags memory with [] => [] | _ => tags memory end in
    let tags :=
      if RelationshipMapper.str_in "#archived" tags then tags
      else (tags ++ ["#archived"%string])%list in
    ((archived_count + 1)%Z, update (id memory) (set_status_tags "archived" tags) st)
  else (archived_count, st).

(** [archive_low_importance] *)
Definition archive_low_importance (threshold : Float.float) (st : store) : Z * store :=
  let memories := search st in
  List.fold_left (archive_step threshold) memories (0%Z, st).

(** [threshold: float = 0.2] *)
Definition default_threshold : Float.float := Float64.decimal 2 10.

(** The two counters of a [MaintenanceResult]. *)
Record MaintenanceResult : Type := mkResult {
  decay_count : Z;
  archived_count : Z
}.




Section Runner.

(** C's [pow], as in [ImportanceEngine.apply_decay]. *)
Variable pow : Float.float -> Z -> Float.float.

(** One turn of the loop of [apply_decay_to_all] on the record [memory] of the
    snapshot: the new count and store. *)
Definition decay_step (now : Z) (acc : Z * store) (memory : Memory) : Z * store :=
  let '(decayed_count, st) := acc in
  match created memory with
  | None => (decayed_count, st)
  | Some created_dt =>
      let days_since := days_between now created_dt in
      if (0 <? days_since)%Z then
        let new_importance :=
          ImportanceEngine.apply_decay pow (importance memory) days_since in
        if negb (Float.eqb new_importance (importance memory))
        then ((decayed_count + 1)%Z, update (id memory) (set_importance new_importance) st)
        else (decayed_count, st)
      else (decayed_count, st)
  end.

(** [apply_decay_to_all]: the number of records written and the store left. *)
Definition apply_decay_to_all (now : Z) (st : store) : Z * store :=
  let memories := search st in
  List.fold_left (decay_step now) memories (0%Z, st).

(** [MaintenanceRunner.run]: the decay pass, then the archive pass; the
    statistics and the health check read the store and change nothing. *)
Definition run (dry_run : bool) (now : Z) (st : store) : MaintenanceResult * store :=
  let '(decay_count, st) := if dry_run then (0%Z, st) else apply_decay_to_all now st in
  let '(archived_count, st) :=
    if dry_run then (0%Z, st) else archive_low_importance default_threshold st in
  ({| decay_count := decay_count; archived_count := archived_count |}, st).



End Runner.

End Maintenance.

(** ** vector_store.py *)

Module VectorStore.

(** An embedding: the components of the array. *)
Definition vector : Type := list Float.float.

(** A metadata dict. *)
Definition metadata : Type := gmap string string.

Inductive exn : Type := AssertionError | RuntimeError.

(** *** numpy *)

(** [vec.astype(np.float32)] *)
Definition astype_float32 (vec : vector) : vector := List.map Float32.of_float vec.

(** [np.dot(a, b)] on [float32] arrays: the products, summed from the left. *)
Definition dot (a b : vector) : Float.float :=
  List.fold_left (fun acc xy => Float32.add acc (Float32.mul (fst xy) (snd xy)))
    (List.combine a b) Float.zero.

(** [np.linalg.norm(v)]: [sqrt(v.dot(v))] *)
Definition norm (v : vector) : Float.float := Float32.sqrt (dot v v).

(** *** faiss.IndexFlatIP *)

Record IndexFlatIP : Type := mkIndex {
  d : nat;
  xb : list vector
}.

Definition new_index (dimension : nat) : IndexFlatIP := {| d := dimension; xb := [] |}.

Definition ntotal (ix : IndexFlatIP) : nat := List.length (xb ix).

(** [index.add(vec.reshape(1, -1))]: refused unless the row has [d] columns. *)
Definition index_add (ix : IndexFlatIP) (vec : vector) : option IndexFlatIP :=
  if Nat.eqb (List.length vec) (d ix)
  then Some {| d := d ix; xb := (xb ix ++ [vec])%list |}
  else None.

(** [index.reconstruct(pos)]: refused when [pos] is out of range. *)
Definition reconstruct (ix : IndexFlatIP) (pos : nat) : option vector := List.nth_error (xb ix) pos.

Definition score_geb (a b : Float.float * nat) : bool := Float.leb (fst b) (fst a).

(** [index.search(query, k)]: the [k] best inner products with their
    positions, best first, earlier position first among equals; refused on a
    query of another dimension or when [k] is not positive. *)
Definition index_search (ix : IndexFlatIP) (query : vector) (k : nat)
  : option (list (Float.float * nat)) :=
  if Nat.eqb (List.length query) (d ix) && negb (Nat.eqb k 0)
  then
    Some (List.firstn k
            (Sql.order_by score_geb
               (List.combine (List.map (dot query) (xb ix)) (List.seq 0 (ntotal ix)))))
  else None.

(** *** The store: the attributes of the object and the two files *)

Record t : Type := mkStore {
  dimension : nat;
  _hash_to_pos : gmap string nat;
  _pos_to_hash : gmap nat string;
  _metadata : gmap string metadata;
  _index : IndexFlatIP;
  index_file : option IndexFlatIP;
  meta_file : option (gmap string nat * gmap string metadata)
}.

Definition with_memory (h2p : gmap string nat) (p2h : gmap nat string)
    (md : gmap string metadata) (ix : IndexFlatIP) (s : t) : t :=
  {| dimension := dimension s; _hash_to_pos := h2p; _pos_to_hash := p2h;
     _metadata := md; _index := ix;
     index_file := index_file s; meta_file := meta_file s |}.

(** [_load]: both files present and readable, or the store starts empty. *)
Definition _load (s : t) : t :=
  match index_file s, meta_file s with
  | Some ix, Some (h2p, md) =>
      with_memory h2p (list_to_map (prod_swap <$> map_to_list h2p)) md ix s
  | _, _ => s
  end.

(** [__init__] on a directory holding [index_file] and [meta_file]. *)
Definition init (dimension : nat) (index_file : option IndexFlatIP)
    (meta_file : option (gmap string nat * gmap string metadata)) : t :=
  _load {| dimension := dimension; _hash_to_pos := ∅; _pos_to_hash := ∅;
           _metadata := ∅; _index := new_index dimension;
           index_file := index_file; meta_file := meta_file |}.

(** [_normalize] *)
Definition _normalize (vec : vector) : vector :=
  let v := astype_float32 vec in
  let norm := norm v in
  if Float.ltb Float.zero norm then List.map (fun x => Float32.div x norm) v else v.

(** [_save]: both files are written from the object. *)
Definition _save (s : t) : t :=
  {| dimension := dimension s; _hash_to_pos := _hash_to_pos s;
     _pos_to_hash := _pos_to_hash s; _metadata := _metadata s; _index := _index s;
     index_file := Some (_index s);
     meta_file := Some (_hash_to_pos s, _metadata s) |}.

(** The first loop of [_remove_from_index]: the vectors to keep, by position. *)
Fixpoint collect_remaining (content_hash : string) (ix : IndexFlatIP)
    (items : list (string * nat)) : option (list (string * vector)) :=
  match items with
  | [] => Some []
  | (h, pos) :: rest =>
      if String.eqb h content_hash then collect_remaining content_hash ix rest
      else
        match reconstruct ix pos, collect_remaining content_hash ix rest with
        | Some vec, Some kept => Some ((h, vec) :: kept)
        | _, _ => None
        end
  end.

(** The second loop of [_remove_from_index]: the index and maps built again. *)
Fixpoint rebuild (remaining : list (string * vector)) (s : t) : result exn unit * t :=
  match remaining with
  | [] => (Ok tt, s)
  | (h, vec) :: rest =>
      let pos := ntotal (_index s) in
      match index_add (_index s) vec with
      | None => (Raise AssertionError, s)
      | Some ix =>
          rebuild rest
            (with_memory (<[h := pos]> (_hash_to_pos s)) (<[pos := h]> (_pos_to_hash s))
               (_metadata s) ix s)
      end
  end.

Definition by_position (a b : string * nat) : bool := Nat.leb (snd a) (snd b).

(** [_remove_from_index] *)
Definition _remove_from_index (content_hash : string) (s : t) : result exn unit * t :=
  match _hash_to_pos s !! content_hash with
  | None => (Ok tt, s)
  | Some _ =>
      let items := Sql.order_by by_position (map_to_list (_hash_to_pos s)) in
      match collect_remaining content_hash (_index s) items with
      | None => (Raise RuntimeError, s)
      | Some remaining =>
          match rebuild remaining
                  (with_memory ∅ ∅ (_metadata s) (new_index (dimension s)) s) with
          | (Raise e, s) => (Raise e, s)
          | (Ok _, s) =>
              (Ok tt,
               with_memory (_hash_to_pos s) (_pos_to_hash s)
                 (delete content_hash (_metadata s)) (_index s) s)
          end
      end
  end.

(** [if metadata:] *)
Definition metadata_truthy (md : option metadata) : option metadata :=
  match md with
  | Some m => if bool_decide (m = ∅) then None else Some m
  | None => None
  end.

(** The body shared by [store_embedding] and the loop of [batch_store], up to
    the save. *)
Definition put (content_hash : string) (embedding : vector) (md : option metadata) (s : t)
  : result exn unit * t :=
  let vec := _normalize embedding in
  let '(r, s) :=
    match _hash_to_pos s !! content_hash with
    | Some _ => _remove_from_index content_hash s
    | None => (Ok tt, s)
    end in
  match r with
  | Raise e => (Raise e, s)
  | Ok _ =>
      let pos := ntotal (_index s) in
      match index_add (_index s) vec with
      | None => (Raise AssertionError, s)
      | Some ix =>
          (Ok tt,
           with_memory (<[content_hash := pos]> (_hash_to_pos s))
             (<[pos := content_hash]> (_pos_to_hash s))
             (match metadata_truthy md with
              | Some m => <[content_hash := m]> (_metadata s)
              | None => _metadata s
              end)
             ix s)
      end
  end.

(** [store_embedding] *)
Definition store_embedding (content_hash : string) (embedding : vector)
    (md : option metadata) (s : t) : result exn unit * t :=
  match put content_hash embedding md s with
  | (Raise e, s) => (Raise e, s)
  | (Ok _, s) => (Ok tt, _save s)
  end.

Fixpoint put_all (items : list (string * vector * option metadata)) (s : t)
  : result exn unit * t :=
  match items with
  | [] => (Ok tt, s)
  | (content_hash, embedding, md) :: rest =>
      match put content_hash embedding md s with
      | (Raise e, s) => (Raise e, s)
      | (Ok _, s) => put_all rest s
      end
  end.

(** [batch_store] *)
Definition batch_store (items : list (string * vector * option metadata)) (s : t)
  : result exn unit * t :=
  match items with
  | [] => (Ok tt, s)
  | _ :: _ =>
      match put_all items s with
      | (Raise e, s) => (Raise e, s)
      | (Ok _, s) => (Ok tt, _save s)
      end
  end.

(** [delete_embedding] *)
Definition delete_embedding (content_hash : string) (s : t) : result exn unit * t :=
  match _hash_to_pos s !! content_hash with
  | None => (Ok tt, s)
  | Some _ =>
      match _remove_from_index content_hash s with
      | (Raise e, s) => (Raise e, s)
      | (Ok _, s) =>
          (Ok tt,
           _save (with_memory (_hash_to_pos s) (_pos_to_hash s)
                    (delete content_hash (_metadata s)) (_index s) s))
      end
  end.

(** [count] *)
Definition count (s : t) : nat := size (_hash_to_pos s).

(** [has_embedding] *)
Definition has_embedding (content_hash : string) (s : t) : bool :=
  bool_decide (is_Some (_hash_to_pos s !! content_hash)).

(** An entry of the list [find_similar] returns. *)
Record hit : Type := mkHit {
  content_hash : string;
  similarity : Float.float;
  hit_metadata : metadata
}.

Definition hit_geb (a b : hit) : bool := Float.leb (similarity b) (similarity a).

(** The loop of [find_similar] over the scores and positions found. *)
Fixpoint collect_hits (threshold : Float.float) (s : t) (found : list (Float.float * nat))
  : list hit :=
  match found with
  | [] => []
  | (score, idx) :: rest =>
      let similarity := Float64.of_float32 score in
      if Float.leb threshold similarity then
        match _pos_to_hash s !! idx with
        | Some hash_id =>
            if PyStr.truthy hash_id
            then {| content_hash := hash_id; similarity := similarity;
                    hit_metadata := default ∅ (_metadata s !! hash_id) |}
                 :: collect_hits threshold s rest
            else collect_hits threshold s rest
        | None => collect_hits threshold s rest
        end
      else collect_hits threshold s rest
  end.

(** [find_similar] *)
Definition find_similar (query_embedding : vector) (top_k : nat) (threshold : Float.float)
    (s : t)
  : result exn (list hit) :=
  if Nat.eqb (ntotal (_index s)) 0 then Ok []
  else
    let query := _normalize query_embedding in
    let n_results := Nat.min top_k (ntotal (_index s)) in
    match index_search (_index s) query n_results with
    | None => Raise AssertionError
    | Some found => Ok (Sql.order_by hit_geb (collect_hits threshold s found))
    end.

(** The mutating calls of the public API, and a run of them; a call that
    raises leaves the object as it was when the exception left it. *)
Inductive op : Type :=
| StoreEmbedding (content_hash : string) (embedding : vector) (md : option metadata)
| BatchStore (items : list (string * vector * option metadata))
| DeleteEmbedding (content_hash : string).

Definition step (o : op) (s : t) : result exn unit * t :=
  match o with
  | StoreEmbedding h v md => store_embedding h v md s
  | BatchStore items => batch_store items s
  | DeleteEmbedding h => delete_embedding h s
  end.

Definition run (ops : list op) (s : t) : t :=
  List.fold_left (fun s o => snd (step o s)) ops s.

(** Both files hold what the object holds. *)
Definition saved (s : t) : Prop :=
  index_file s = Some (_index s) /\ meta_file s = Some (_hash_to_pos s, _metadata s).

(** The call changes what the object holds: a store, a batch with at least
    one item, the deletion of a hash that is present. *)
Definition mutates (o : op) (s : t) : Prop :=
  match o with
  | StoreEmbedding _ _ _ => True
  | BatchStore items => items <> []
  | DeleteEmbedding h => is_Some (_hash_to_pos s !! h)
  end.

(** The object is consistent: as many hashes as vectors, every recorded
    position inside the index, every vector of the index's dimension. *)
Definition consistent (s : t) : Prop :=
  size (_hash_to_pos s) = ntotal (_index s)
  /\ (forall h pos, _hash_to_pos s !! h = Some pos -> (pos < ntotal (_index s))%nat)
  /\ d (_index s) = dimension s
  /\ List.Forall (fun v => List.length v = dimension s) (xb (_index s)).

(** What one call leaves, whether it returns or raises: a consistent object
    of the same dimension whose vectors are old ones or normalized inputs. *)
Definition kept (s s' : t) : Prop :=
  consistent s'
  /\ dimension s' = dimension s
  /\ (forall v, In v (xb (_index s')) ->
        In v (xb (_index s)) \/ exists e, v = _normalize e).

(** The vectors a call hands to [_normalize]. *)
Definition inputs (o : op) : list vector :=
  match o with
  | StoreEmbedding _ e _ => [e]
  | BatchStore items => List.map (fun item => snd (fst item)) items
  | DeleteEmbedding _ => []
  end.

(** No component is NaN. *)
Definition nan_free (v : vector) : Prop := List.Forall (fun x => Float.is_nan x = false) v.

(** Every component is a zero. *)
Definition all_zero (v : vector) : Prop := List.Forall (fun x => Float.is_zero x = true) v.

(** Every component is finite. *)
Definition all_finite (v : vector) : Prop :=
  List.Forall (fun x => Float.is_finite x = true) v.

End VectorStore.

(** ** cross_project_sharing_db.py *)

Module CrossProjectSharer.

(** A row of [shared_insights]. *)
Record insight : Type := mkInsight {
  id : string;
  source_project : string;
  target_project : string;
  memory_id : string;
  memory_content : string;
  relevance_score : Q;
  created_at : Z;
  status : string
}.

(** A row of [project_sharing_config], without its key. *)
Record config : Type := mkConfig {
  share_enabled : Z;
  updated_at : Z
}.

(** The two tables: the insights in insertion order, the configuration by
    its primary key [project_id]. *)
Record db : Type := mkDb {
  shared_insights : list insight;
  project_sharing_config : gmap string config
}.

(** The dict [share] returns. *)
Record share_result : Type := mkShareResult {
  shared : bool;
  result_id : option string;
  reason : string
}.

(** [is_sharing_enabled] *)
Definition is_sharing_enabled (s : db) (project_id : string) : bool :=
  match project_sharing_config s !! project_id with
  | None => true
  | Some row => negb (share_enabled row =? 0)
  end.

(** [set_sharing_enabled]; [now] is [int(time.time())]. *)
Definition set_sharing_enabled (now : Z) (project_id : string) (enabled : bool) (s : db) : db :=
  {| shared_insights := shared_insights s;
     project_sharing_config :=
       <[project_id := {| share_enabled := if enabled then 1 else 0; updated_at := now |}]>
         (project_sharing_config s) |}.

(** The insert violates [PRIMARY KEY (id)] or [UNIQUE (memory_id,
    target_project)]: [sqlite3.IntegrityError]. *)
Definition integrity_error (r : insight) (rows : list insight) : bool :=
  List.existsb
    (fun x =>
       String.eqb (id x) (id r)
       || (String.eqb (memory_id x) (memory_id r)
           && String.eqb (target_project x) (target_project r)))
    rows.

(** [share].  [memory] is the dict, its values strings; [uuid1] and [uuid2]
    are the two [str(uuid.uuid4())] the call evaluates, in order (the second
    is the default handed to [memory.get('id', ...)]); [now] is
    [int(time.time())]. *)
Definition share (uuid1 uuid2 : string) (now : Z) (memory : gmap string string)
    (target_project : string) (relevance_score : Q) (s : db) : share_result * db :=
  if negb (is_sharing_enabled s target_project)
  then ({| shared := false; result_id := None; reason := "sharing_disabled" |}, s)
  else
    let insight_id := uuid1 in
    let memory_id := default uuid2 (memory !! "id") in
    let source_project := default "unknown" (memory !! "project_id") in
    let content := default "" (memory !! "content") in
    let row :=
      {| id := insight_id; source_project := source_project;
         target_project := target_project; memory_id := memory_id;
         memory_content := content; relevance_score := relevance_score;
         created_at := now; status := "active" |} in
    if integrity_error row (shared_insights s)
    then ({| shared := false; result_id := None; reason := "duplicate" |}, s)
    else
      ({| shared := true; result_id := Some insight_id; reason := "success" |},
       {| shared_insights := (shared_insights s ++ [row])%list;
          project_sharing_config := project_sharing_config s |}).

(** The row [share] inserts. *)
Definition row_of (uuid1 uuid2 : string) (now : Z) (memory : gmap string string)
    (target_project : string) (relevance_score : Q) : insight :=
  {| id := uuid1; source_project := default "unknown" (memory !! "project_id");
     target_project := target_project; memory_id := default uuid2 (memory !! "id");
     memory_content := default "" (memory !! "content");
     relevance_score := relevance_score; created_at := now; status := "active" |}.

(** The same memory shared to the same target once per element of [draws],
    each element the two UUIDs and the clock of one call. *)
Fixpoint share_repeatedly (draws : list (string * string * Z)) (memory : gmap string string)
    (target_project : string) (relevance_score : Q) (s : db) : list share_result * db :=
  match draws with
  | [] => ([], s)
  | (uuid1, uuid2, now) :: rest =>
      let '(r, s) := share uuid1 uuid2 now memory target_project relevance_score s in
      let '(rs, s) := share_repeatedly rest memory target_project relevance_score s in
      (r :: rs, s)
  end.

(** The UUIDs of the draws are new to the table: no stored row has one of
    them as its id or as its memory id. *)
Definition unused (draws : list (string * string * Z)) (s : db) : Prop :=
  forall u1 u2 now x, In (u1, u2, now) draws -> In x (shared_insights s) ->
                      id x <> u1 /\ memory_id x <> u2.

(** The rows stored for a memory id and a target. *)
Definition rows_for (s : db) (mid target : string) : list insight :=
  List.filter
    (fun x => String.eqb (memory_id x) mid && String.eqb (target_project x) target)
    (shared_insights s).

End CrossProjectSharer.

(** ** prospective_triggers.py *)

Module ProspectiveTriggers.

(** The [condition] payload: the keys the matcher reads, each absent or
    present. *)
Record condition : Type := mkCondition {
  after_date : option string;
  project : option string;
  keywords : option (list string)
}.

(** A row of [prospective_triggers], as [_row_to_trigger] returns it. *)
Record ProspectiveTrigger : Type := mkTrigger {
  trigger_id : Z;
  memory_id : string;
  trigger_type : string;
  cond : condition;
  status : string;
  created_at : string;
  fired_at : option string
}.

(** The [context] dict of [check_triggers]. *)
Record context : Type := mkContext {
  ctx_project : option string;
  ctx_keywords : option (list string);
  current_date : option string
}.

(** [set(k.lower() for k in d.get("keywords", []))] *)
Definition lowered (kws : option (list string)) : gset string :=
  list_to_set (PyStr.lower <$> default [] kws).

(** [_keywords_overlap] *)
Definition _keywords_overlap (c : condition) (ctx : context) : bool :=
  let cond_kws := lowered (keywords c) in
  let ctx_kws := lowered (ctx_keywords ctx) in
  if bool_decide (cond_kws = ∅) || bool_decide (ctx_kws = ∅) then false
  else bool_decide (cond_kws ∩ ctx_kws ≠ ∅).

(** Truthiness of [d.get(key)]: present and not the empty string. *)
Definition truthy (v : option string) : bool :=
  match v with Some s => PyStr.truthy s | None => false end.

(** [_trigger_matches] *)
Definition _trigger_matches (trigger : ProspectiveTrigger) (ctx : context) : bool :=
  let condition := cond trigger in
  if String.eqb (trigger_type trigger) "time" then
    match after_date condition, current_date ctx with
    | Some a, Some d =>
        if PyStr.truthy a && PyStr.truthy d then PyStr.leb a d else false
    | _, _ => false
    end
  else if String.eqb (trigger_type trigger) "event" then
    let ctx_project := default "" (ctx_project ctx) in
    let cond_project := default "" (project condition) in
    if PyStr.truthy cond_project && PyStr.truthy ctx_project
       && String.eqb (PyStr.lower ctx_project) (PyStr.lower cond_project)
    then true
    else _keywords_overlap condition ctx
  else if String.eqb (trigger_type trigger) "topic" then
    _keywords_overlap condition ctx
  else false.

(** [check_triggers] over the rows of the table. *)
Definition check_triggers (table : list ProspectiveTrigger) (ctx : context)
  : list ProspectiveTrigger :=
  let rows := List.filter (fun t => String.eqb (status t) "pending") table in
  List.filter (fun t => _trigger_matches t ctx) rows.

(** Some condition keyword equals some context keyword, case aside. *)
Definition keywords_meet (c : condition) (ctx : context) : Prop :=
  exists k k', In k (default [] (keywords c)) /\ In k' (default [] (ctx_keywords ctx))
               /\ PyStr.lower k = PyStr.lower k'.

(** The condition subsumes the context, in the words of the specification:
    a date reached, a keyword met, or the same project, case aside. *)
Definition subsumes (trigger : ProspectiveTrigger) (ctx : context) : Prop :=
  (trigger_type trigger = "time"
   /\ exists a d, after_date (cond trigger) = Some a /\ current_date ctx = Some d
                  /\ PyStr.leb a d = true)
  \/ (trigger_type trigger = "topic" /\ keywords_meet (cond trigger) ctx)
  \/ (trigger_type trigger = "event"
      /\ ((exists p q, project (cond trigger) = Some p /\ ctx_project ctx = Some q
                       /\ PyStr.lower p = PyStr.lower q)
          \/ keywords_meet (cond trigger) ctx)).

(** The same, with a date or a project of the condition counted only when it
    is not the empty string. *)
Definition subsumes_nonempty (trigger : ProspectiveTrigger) (ctx : context) : Prop :=
  (trigger_type trigger = "time"
   /\ exists a d, after_date (cond trigger) = Some a /\ current_date ctx = Some d
                  /\ a <> "" /\ PyStr.leb a d = true)
  \/ (trigger_type trigger = "topic" /\ keywords_meet (cond trigger) ctx)
  \/ (trigger_type trigger = "event"
      /\ ((exists p q, project (cond trigger) = Some p /\ ctx_project ctx = Some q
                       /\ p <> "" /\ PyStr.lower p = PyStr.lower q)
          \/ keywords_meet (cond trigger) ctx)).

End ProspectiveTriggers.

(** ** Sample inputs *)

Module Samples.

(** A text of 101 one-letter words and nothing else. *)
Definition text_101_words : string := PyStr.repeat_str "w " 101.

(** One edge linked twice, with another strength and evidence the second
    time. *)
Definition linked_once : RelationshipMapper.table :=
  snd (RelationshipMapper.link_memories [] 100 "a" "b" "causal" "first evidence" (1 # 2)).

Definition linked_twice : RelationshipMapper.table :=
  snd (RelationshipMapper.link_memories linked_once 200 "a" "b" "causal"
         "second evidence" (9 # 10)).

(** A corpus of one active record, two days old when the clock reads
    [two_days], of importance 0.205. *)
Definition two_days : Z := 172800.




(** One active record, two days old when the clock reads [two_days], whose
    importance is the smallest positive float, 5e-324. *)
Definition tiny_corpus : MemoryTSClient.store :=
  [ MemoryTSClient.mkMemory "m5" "faded note" "ops" (S754_finite false 1 (-1074)) "active"
      [] (Some 0) ].

(** A wrapped call that always raises, and one that always returns, on a
    world that counts the invocations. *)
Definition always_raises (w : nat) : (nat + string) * nat := (inr "timeout"%string, S w).

Definition always_returns (w : nat) : (nat + string) * nat := (inl 42%nat, S w).

(** A memory dict with an id, and one without. *)
Definition memory_with_id : gmap string string :=
  <["id" := "mem-001"]> (<["content" := "Use WAL mode"]> (<["project_id" := "alpha"]> ∅)).

Definition memory_without_id : gmap string string :=
  <["content" := "Use WAL mode"]> (<["project_id" := "alpha"]> ∅).

Definition no_sharing_yet : CrossProjectSharer.db :=
  CrossProjectSharer.mkDb [] ∅.

(** The UUIDs and clock readings of three calls. *)
Definition three_draws : list (string * string * Z) :=
  [ ("11111111-aaaa", "22222222-aaaa", 1700000000);
    ("11111111-bbbb", "22222222-bbbb", 1700000001);
    ("11111111-cccc", "22222222-cccc", 1700000002) ].

(** A pending event trigger whose condition names the empty project, and a
    context whose project is the empty string. *)
Definition unnamed_project_trigger : ProspectiveTriggers.ProspectiveTrigger :=
  ProspectiveTriggers.mkTrigger 1 "mem-7" "event"
    (ProspectiveTriggers.mkCondition None (Some ""%string) (Some ["deploy"%string]))
    "pending" "2026-01-01T00:00:00+00:00" None.

Definition unnamed_project_context : ProspectiveTriggers.context :=
  ProspectiveTriggers.mkContext (Some ""%string) (Some ["cooking"%string]) None.

(** A pending time trigger and the context of a later day. *)
Definition dated_trigger : ProspectiveTriggers.ProspectiveTrigger :=
  ProspectiveTriggers.mkTrigger 2 "mem-8" "time"
    (ProspectiveTriggers.mkCondition (Some "2026-03-01"%string) None None)
    "pending" "2026-01-01T00:00:00+00:00" None.

Definition later_context : ProspectiveTriggers.context :=
  ProspectiveTriggers.mkContext None None (Some "2026-03-02"%string).

(** A store of dimension 3 on an empty directory, three calls on it, and the
    zero vector. *)
Definition new_store : VectorStore.t := VectorStore.init 3 None None.

Definition zero_vector : VectorStore.vector := [Float.zero; Float.zero; Float.zero].

(** The float64 vector [1e39, 0, 0]: finite, and too large for [float32]. *)
Definition huge_vector : VectorStore.vector :=
  [Float64.of_Z (10 ^ 39); Float.zero; Float.zero].

Definition three_calls : list VectorStore.op :=
  [ VectorStore.StoreEmbedding "h1" [Float64.of_Z 3; Float.zero; Float64.of_Z 4] None;
    VectorStore.BatchStore
      [("h2"%string, zero_vector, None);
       ("h1"%string, [Float64.of_Z 1; Float64.of_Z 1; Float64.of_Z 1], None)];
    VectorStore.DeleteEmbedding "h2" ].

End Samples.

(** * Properties *)

(** ** The embedding on known values *)

Section KnownValues.

Local Open Scope Q_scope.

Example md5_of_empty : MD5.hexdigest "" = "d41d8cd98f00b204e9800998ecf8427e"%string.
Proof. vm_compute. reflexivity. Qed.

Example md5_of_abc : MD5.hexdigest "abc" = "900150983cd24fb0d6963f7d28e17f72"%string.
Proof. vm_compute. reflexivity. Qed.

Example split_on_whitespace :
  PyStr.split "  remember  to check the deploy " = ["remember"; "to"; "check"; "the"; "deploy"]%string.
Proof. vm_compute. reflexivity. Qed.

Example isupper_needs_a_cased_character :
  PyStr.isupper "API2" = true /\ PyStr.isupper "Api" = false /\ PyStr.isupper "123" = false.
Proof. repeat split; reflexivity. Qed.

(** Two strong keywords, an exclamation mark, one word in capitals and four
    sentence terminators: 0.5 + 0.3 + 0.2 + 0.05 + 0.05 + 0.05, capped at 1. *)
Example importance_is_capped :
  ImportanceEngine.raw_score "CRITICAL bug in production! Fix. Now. Ok?" == 115 # 100
  /\ ImportanceEngine.calculate_importance "CRITICAL bug in production! Fix. Now. Ok?" == 1.
Proof. split; vm_compute; reflexivity. Qed.

Example importance_of_empty_text : ImportanceEngine.calculate_importance "" == 3 # 10.
Proof. vm_compute. reflexivity. Qed.

(** The literals [0.99] and [0.2] are the binary64 values Python reads. *)
Example decimal_literals :
  Float64.decimal 99 100 = S754_finite false 8917127262193582 (-53)
  /\ Float64.decimal 2 10 = S754_finite false 7205759403792794 (-55).
Proof. split; vm_compute; reflexivity. Qed.

(** A record of importance 0.25 last touched 200 days ago decays below the
    archive threshold, and not to zero. *)
Example decay_after_200_days :
  Float.ltb (ImportanceEngine.apply_decay Float64.pow (Float64.decimal 25 100) 200)
    (Float64.decimal 2 10) = true
  /\ Float.ltb Float.zero
       (ImportanceEngine.apply_decay Float64.pow (Float64.decimal 25 100) 200) = true.
Proof. split; vm_compute; reflexivity. Qed.

(** The smallest positive float is a fixed point of the decay: the product
    with [0.99 ** 2] rounds back to it, so the record is not written back;
    it is archived all the same. *)
Example smallest_float_does_not_decay :
  ImportanceEngine.apply_decay Float64.pow (S754_finite false 1 (-1074)) 2
  = S754_finite false 1 (-1074)
  /\ fst (Maintenance.run Float64.pow false Samples.two_days Samples.tiny_corpus)
     = Maintenance.mkResult 0 1.
Proof. split; vm_compute; reflexivity. Qed.

(** The decay step compares with [!=] at binary64 precision: an importance
    near 1e-50 is written back, although it is zero at [float32] precision
    before and after. *)
Example decay_compares_at_binary64 :
  let x := Float64.div (Float64.of_Z 1) (Float64.of_Z (10 ^ 50)) in
  let y := ImportanceEngine.apply_decay Float64.pow x 2 in
  Float.eqb y x = false
  /\ Float32.of_float x = Float.zero /\ Float32.of_float y = Float.zero.
Proof. repeat split; vm_compute; reflexivity. Qed.

(** [_normalize] on [3, 0, 4]: the nearest [float32] values to 0.6 and 0.8. *)
Example normalize_3_0_4 :
  VectorStore._normalize [Float64.of_Z 3; Float.zero; Float64.of_Z 4]
  = [S754_finite false 10066330 (-24); Float.zero; S754_finite false 13421773 (-24)].
Proof. vm_compute. reflexivity. Qed.

(** The squares of [1e20, 1e20, 0] overflow in [float32]: the norm is an
    infinity and every quotient is zero. *)
Example normalize_overflowing_norm :
  VectorStore._normalize [Float64.of_Z (10 ^ 20); Float64.of_Z (10 ^ 20); Float.zero]
  = [Float.zero; Float.zero; Float.zero].
Proof. vm_compute. reflexivity. Qed.

Example relationship_ids_are_md5_prefixes :
  RelationshipMapper.rel_id "a" "b" "causal" = "8cd62ee60e43af3a"%string.
Proof. vm_compute. reflexivity. Qed.

(** The outgoing edges come back, strongest first. *)
Example outgoing_edges_sorted :
  let db := snd (RelationshipMapper.link_memories Samples.linked_once 300 "a" "c" "supports"
                   "same finding" (9 # 10)) in
  RelationshipMapper.get_related_memories db "a" None "from"
  = Ok [ ("c"%string,
          RelationshipMapper.mkRel (RelationshipMapper.rel_id "a" "c" "supports")
            "a" "c" "supports" (9 # 10) "same finding" 300);
         ("b"%string,
          RelationshipMapper.mkRel "8cd62ee60e43af3a" "a" "b" "causal" (1 # 2)
            "first evidence" 100) ]
  /\ RelationshipMapper.get_related_memories db "c" (Some "supports"%string) "to"
     = Ok [ ("a"%string,
             RelationshipMapper.mkRel (RelationshipMapper.rel_id "a" "c" "supports")
               "a" "c" "supports" (9 # 10) "same finding" 300) ].
Proof. split; vm_compute; reflexivity. Qed.

End KnownValues.

(** ** Importance engine *)

Section ImportanceProperties.

Import ImportanceEngine.
Local Open Scope Q_scope.

Lemma length_bonus_values (wc : Z) :
  length_bonus wc = (1 # 10) \/ length_bonus wc = 0.
Proof.
  unfold length_bonus.
  destruct (50 <? wc)%Z eqn:H50; [now left|].
  destruct (100 <? wc)%Z eqn:H100; [|now right].
  apply Z.ltb_ge in H50. apply Z.ltb_lt in H100. lia.
Qed.

(** C1 (the code departs from it): the length bonus of [calculate_importance]
    is never +0.2, whatever the word count: above 50 words it is +0.1, also
    above 100 words, because the [elif word_count > 100] branch sits behind
    [if word_count > 50].  A text of 101 plain words scores 0.5 + 0.1 = 0.6,
    where the claim has 0.5 + 0.2 = 0.7. *)
Theorem length_bonus_never_two_tenths :
  (forall wc : Z, ~ length_bonus wc == 2 # 10)
  /\ (forall wc : Z, (100 < wc)%Z -> length_bonus wc = 1 # 10)
  /\ word_count Samples.text_101_words = 101%Z
  /\ raw_score Samples.text_101_words == 6 # 10
  /\ calculate_importance Samples.text_101_words == 6 # 10.
Proof.
  split; [|split; [|split; [|split]]].
  - intros wc H. destruct (length_bonus_values wc) as [E|E]; rewrite E in H; discriminate H.
  - intros wc H. unfold length_bonus.
    destruct (50 <? wc)%Z eqn:H50; [reflexivity|].
    apply Z.ltb_ge in H50. lia.
  - vm_compute. reflexivity.
  - vm_compute. reflexivity.
  - vm_compute. reflexivity.
Qed.

End ImportanceProperties.

(** ** Relationship graph *)

Section RelationshipProperties.

Import RelationshipMapper.
Local Open Scope Q_scope.

Lemma both_clause_is_rejected :
  Sql.parse_where "from_memory_id = ? OR OR to_memory_id = ?" = None
  /\ Sql.parse_where "from_memory_id = ? OR OR to_memory_id = ? AND relationship_type = ?" = None.
Proof. split; vm_compute; reflexivity. Qed.

(** C2 (the code departs from it): with [direction="both"] the WHERE clause
    that [get_related_memories] builds is
    [from_memory_id = ? OR OR to_memory_id = ?], the second condition carrying
    an [OR] of its own besides the [" OR "] of the join; SQLite rejects it, so
    the call raises [OperationalError] for every table, id and type instead of
    returning the edges at the id.  [detect_contradictions] is that call with
    ["contradicts"], and raises with it. *)
Theorem get_related_memories_both_raises :
  (forall (db : table) (memory_id : string) (relationship_type : option string),
      get_related_memories db memory_id relationship_type "both" = Raise OperationalError)
  /\ (forall (db : table) (memory_id : string),
         detect_contradictions db memory_id
         = get_related_memories db memory_id (Some "contradicts"%string) "both")
  /\ (forall (db : table) (memory_id : string),
         detect_contradictions db memory_id = Raise OperationalError).
Proof.
  assert (H : forall db memory_id relationship_type,
             get_related_memories db memory_id relationship_type "both"
             = Raise OperationalError).
  { intros db memory_id [[|c rt]|]; reflexivity. }
  split; [exact H|]. split; [reflexivity|].
  intros db memory_id. apply H.
Qed.


Lemma same_key_sym (x y : MemoryRelationship) : same_key x y = same_key y x.
Proof.
  unfold same_key.
  rewrite (String.eqb_sym (from_memory_id x)), (String.eqb_sym (to_memory_id x)),
    (String.eqb_sym (relationship_type x)).
  reflexivity.
Qed.

Lemma link_memories_valid (db : table) (now : Z) (a b kind e : string) (s : Q) :
  str_in kind valid_types = true -> 0 <= s <= 1 ->
  link_memories db now a b kind e s
  = (Ok (rel_id a b kind),
     insert_or_ignore (mkRel (rel_id a b kind) a b kind s e now) db).
Proof.
  intros Hk [H0 H1]. unfold link_memories. rewrite Hk. simpl negb.
  unfold PyFloat.leb.
  apply Qle_bool_iff in H0. apply Qle_bool_iff in H1. rewrite H0, H1.
  reflexivity.
Qed.

Lemma conflicts_same_id_key (r r' : MemoryRelationship) (db : table) :
  id r = id r' -> from_memory_id r = from_memory_id r' ->
  to_memory_id r = to_memory_id r' -> relationship_type r = relationship_type r' ->
  conflicts r db = conflicts r' db.
Proof.
  intros Hi Hf Ht Hk. unfold conflicts, same_key. rewrite Hi, Hf, Ht, Hk. reflexivity.
Qed.

Lemma conflicts_after_insert (r : MemoryRelationship) (db : table) :
  conflicts r (insert_or_ignore r db) = true.
Proof.
  unfold insert_or_ignore. destruct (conflicts r db) eqn:E; [exact E|].
  unfold conflicts. rewrite List.existsb_app. simpl.
  rewrite String.eqb_refl. simpl. apply orb_true_r.
Qed.

Lemma insert_or_ignore_twice (r r' : MemoryRelationship) (db : table) :
  id r = id r' -> from_memory_id r = from_memory_id r' ->
  to_memory_id r = to_memory_id r' -> relationship_type r = relationship_type r' ->
  insert_or_ignore r' (insert_or_ignore r db) = insert_or_ignore r db.
Proof.
  intros Hi Hf Ht Hk. unfold insert_or_ignore at 1.
  rewrite <- (conflicts_same_id_key r r') by assumption.
  rewrite conflicts_after_insert. reflexivity.
Qed.

Lemma constraints_hold_app (r : MemoryRelationship) (db : table) :
  constraints_hold db -> conflicts r db = false -> constraints_hold (db ++ [r])%list.
Proof.
  induction db as [|x db IH]; simpl; intros Hc Hr.
  - split; [reflexivity|exact I].
  - destruct Hc as [Hx Hc]. apply orb_false_iff in Hr as [Hxr Hr].
    split; [|apply IH; assumption].
    rewrite List.existsb_app, Hx. simpl.
    rewrite String.eqb_sym, same_key_sym, Hxr. reflexivity.
Qed.

Lemma constraints_hold_insert (r : MemoryRelationship) (db : table) :
  constraints_hold db -> constraints_hold (insert_or_ignore r db).
Proof.
  intros H. unfold insert_or_ignore. destruct (conflicts r db) eqn:E; [exact H|].
  apply constraints_hold_app; assumption.
Qed.

Lemma has_key_same_key (a b kind : string) (x y : MemoryRelationship) :
  has_key a b kind x = true -> has_key a b kind y = true -> same_key y x = true.
Proof.
  unfold has_key, same_key. intros Hx Hy.
  apply andb_true_iff in Hx as [Hx Hx3]. apply andb_true_iff in Hx as [Hx1 Hx2].
  apply andb_true_iff in Hy as [Hy Hy3]. apply andb_true_iff in Hy as [Hy1 Hy2].
  apply String.eqb_eq in Hx1, Hx2, Hx3, Hy1, Hy2, Hy3.
  rewrite Hx1, Hx2, Hx3, Hy1, Hy2, Hy3, !String.eqb_refl. reflexivity.
Qed.

Lemma no_conflict_no_edge (r : MemoryRelationship) (db : table) :
  List.existsb (fun x => String.eqb (id x) (id r) || same_key x r) db = false ->
  edges_keyed db (from_memory_id r) (to_memory_id r) (relationship_type r) = [].
Proof.
  induction db as [|x db IH]; simpl; intros H; [reflexivity|].
  apply orb_false_iff in H as [Hx H]. apply orb_false_iff in Hx as [_ Hx].
  unfold has_key. unfold same_key in Hx. rewrite Hx. apply IH, H.
Qed.

Lemma no_conflict_no_other_edge (a b kind : string) (x : MemoryRelationship) (db : table) :
  List.existsb (fun y => String.eqb (id y) (id x) || same_key y x) db = false ->
  has_key a b kind x = true ->
  edges_keyed db a b kind = [].
Proof.
  intros H Hk. induction db as [|y db IH]; simpl; [reflexivity|].
  simpl in H. apply orb_false_iff in H as [Hy H].
  apply orb_false_iff in Hy as [_ Hy].
  destruct (has_key a b kind y) eqn:Hky.
  - rewrite (has_key_same_key a b kind x y Hk Hky) in Hy. discriminate Hy.
  - apply IH, H.
Qed.

Lemma constraints_unique_key (a b kind : string) (db : table) :
  constraints_hold db -> (List.length (edges_keyed db a b kind) <= 1)%nat.
Proof.
  induction db as [|x db IH]; simpl; intros Hc; [lia|].
  destruct Hc as [Hx Hc].
  destruct (has_key a b kind x) eqn:Hk.
  - rewrite (no_conflict_no_other_edge a b kind x db Hx Hk). simpl. lia.
  - apply IH, Hc.
Qed.

(** C4 (as amended): [link_memories] inserts with [INSERT OR IGNORE].  On a
    table that satisfies its constraints, two calls with the same
    [(from, to, kind)] and valid arguments leave at most one edge with that
    key, the second call changes nothing, and when the first call met no row
    with its id or key the one edge carries the strength, the evidence and the
    timestamp of the FIRST call. *)
Theorem link_memories_twice_keeps_first
    (db : table) (now1 now2 : Z) (a b kind e1 e2 : string) (s1 s2 : Q) :
  constraints_hold db ->
  str_in kind valid_types = true ->
  0 <= s1 <= 1 -> 0 <= s2 <= 1 ->
  let first := mkRel (rel_id a b kind) a b kind s1 e1 now1 in
  let db1 := snd (link_memories db now1 a b kind e1 s1) in
  let db2 := snd (link_memories db1 now2 a b kind e2 s2) in
  db2 = db1
  /\ (List.length (edges_keyed db2 a b kind) <= 1)%nat
  /\ (conflicts first db = false -> edges_keyed db2 a b kind = [first]).
Proof.
  intros Hc Hk Hs1 Hs2 first db1 db2.
  assert (E1 : db1 = insert_or_ignore first db).
  { unfold db1. rewrite link_memories_valid by assumption. reflexivity. }
  assert (E2 : db2 = db1).
  { unfold db2. rewrite link_memories_valid by assumption. simpl snd.
    rewrite E1. apply insert_or_ignore_twice; reflexivity. }
  split; [exact E2|]. split.
  - rewrite E2, E1. apply constraints_unique_key, constraints_hold_insert, Hc.
  - intros Hfree. rewrite E2, E1. unfold insert_or_ignore. rewrite Hfree.
    pose proof (no_conflict_no_edge first db Hfree) as Hnone. simpl in Hnone.
    unfold edges_keyed in *. rewrite List.filter_app, Hnone. simpl.
    unfold has_key. simpl. rewrite !String.eqb_refl. reflexivity.
Qed.

Lemma link_memories_twice_keeps_first_witness :
  Samples.linked_twice = Samples.linked_once
  /\ (List.length (edges_keyed Samples.linked_twice "a" "b" "causal") <= 1)%nat
  /\ (conflicts (mkRel (rel_id "a" "b" "causal") "a" "b" "causal" (1 # 2)
                   "first evidence" 100) [] = false ->
      edges_keyed Samples.linked_twice "a" "b" "causal"
      = [mkRel (rel_id "a" "b" "causal") "a" "b" "causal" (1 # 2) "first evidence" 100]).
Proof.
  apply (link_memories_twice_keeps_first [] 100 200 "a" "b" "causal"
           "first evidence" "second evidence" (1 # 2) (9 # 10)).
  - exact I.
  - reflexivity.
  - split; discriminate.
  - split; discriminate.
Defined.

(** C4, the claim as stated fails: after
    [link_memories("a", "b", "causal", "first evidence", 0.5)] and
    [link_memories("a", "b", "causal", "second evidence", 0.9)] on an empty
    table, the one edge stored holds the first call's strength and evidence,
    not the second's. *)
Lemma link_memories_is_not_an_upsert :
  edges_keyed Samples.linked_twice "a" "b" "causal"
  = [mkRel "8cd62ee60e43af3a" "a" "b" "causal" (1 # 2) "first evidence" 100]
  /\ ~ (exists r, edges_keyed Samples.linked_twice "a" "b" "causal" = [r]
                  /\ strength r == 9 # 10 /\ evidence r = "second evidence"%string).
Proof.
  assert (E : edges_keyed Samples.linked_twice "a" "b" "causal"
              = [mkRel "8cd62ee60e43af3a" "a" "b" "causal" (1 # 2) "first evidence" 100]).
  { vm_compute. reflexivity. }
  split; [exact E|].
  intros [r [Hr [Hs _]]]. rewrite E in Hr. injection Hr as <-.
  simpl in Hs. discriminate Hs.
Qed.

End RelationshipProperties.

(** ** Maintenance runner *)

Section MaintenanceProperties.

Import MemoryTSClient Maintenance.

Variable pow : Float.float -> Z -> Float.float.

(** *** Floats *)




(** *** The record store *)
















End MaintenanceProperties.



(** ** Circuit breaker *)

Section CircuitBreakerProperties.

Import CircuitBreaker.
Local Open Scope Q_scope.

Context {W A E : Type}.

Lemma state_when_not_open (now : Q) (b : t) :
  _state b <> OPEN -> state now b = (_state b, b).
Proof.
  intros H. unfold state. destruct (_state b); try reflexivity. congruence.
Qed.

Lemma state_open_early (now : Q) (b : t) :
  _state b = OPEN -> now - _last_failure_time b < recovery_timeout b ->
  state now b = (OPEN, b).
Proof.
  intros Ho Hlt. unfold state. rewrite Ho.
  destruct (PyFloat.leb (recovery_timeout b) (now - _last_failure_time b)) eqn:El.
  - unfold PyFloat.leb in El. apply Qle_bool_iff in El. Lqa.lra.
  - rewrite andb_false_r. reflexivity.
Qed.

Lemma state_open_late (now : Q) (b : t) :
  _state b = OPEN -> 0 < _last_failure_time b ->
  recovery_timeout b <= now - _last_failure_time b ->
  state now b = (HALF_OPEN, set_state HALF_OPEN b).
Proof.
  intros Ho Hpos Hle. unfold state. rewrite Ho.
  assert (E1 : PyFloat.ltb 0 (_last_failure_time b) = true).
  { unfold PyFloat.ltb. destruct (Qle_bool (_last_failure_time b) 0) eqn:El; [|reflexivity].
    apply Qle_bool_iff in El. Lqa.lra. }
  assert (E2 : PyFloat.leb (recovery_timeout b) (now - _last_failure_time b) = true).
  { unfold PyFloat.leb. now apply Qle_bool_iff. }
  rewrite E1, E2. reflexivity.
Qed.

Lemma call_passes_failure (fn : W -> (A + E) * W) (now later : Q) (b b' : t) (w w' : W)
    (current : State) (exc : E) :
  state now b = (current, b') -> current <> OPEN -> fn w = (inr exc, w') ->
  call fn now later b w = (Reraised exc, _on_failure later b', w').
Proof.
  intros Hs Hc Hf. unfold call. rewrite Hs.
  destruct current; try congruence; simpl; rewrite Hf; reflexivity.
Qed.

Lemma call_passes_success (fn : W -> (A + E) * W) (now later : Q) (b b' : t) (w w' : W)
    (current : State) (result : A) :
  state now b = (current, b') -> current <> OPEN -> fn w = (inl result, w') ->
  call fn now later b w = (Returned result, _on_success b', w').
Proof.
  intros Hs Hc Hf. unfold call. rewrite Hs.
  destruct current; try congruence; simpl; rewrite Hf; reflexivity.
Qed.

Lemma call_closed_failure (fn : W -> (A + E) * W) (now later : Q) (b : t) (w : W) :
  fails fn -> _state b = CLOSED ->
  breaker_of (call fn now later b w) = _on_failure later b.
Proof.
  intros Hf Hc. destruct (Hf w) as [exc [w' Ef]].
  rewrite (call_passes_failure fn now later b b w w' CLOSED exc); try assumption.
  - reflexivity.
  - rewrite state_when_not_open by congruence. now rewrite Hc.
  - discriminate.
Qed.

(** C5: on a breaker with [failure_threshold = 3] and any
    [recovery_timeout], closed with no failure counted (a new one is), after
    three calls in a row that fail (the last failure recorded when the
    monotonic clock reads [l3 > 0]) the state is OPEN and the failure count 3.
    While less than the timeout has passed since [l3], reading [state] gives
    OPEN and [call] raises [CircuitBreakerOpenError] with the name and the
    count in its message, whatever the wrapped function, which is not run (the
    world is left as it was).  Once the timeout has passed, reading [state]
    gives HALF_OPEN; a call that then succeeds (made on the breaker that read
    left, at any later time, or made directly at that time) leaves the breaker
    CLOSED with a failure count of 0, a call that then fails leaves it OPEN. *)
Theorem breaker_cycle (b0 : t)
    (f1 f2 f3 : W -> (A + E) * W) (n1 l1 n2 l2 n3 l3 : Q) (w0 : W) :
  failure_threshold b0 = 3%Z -> _state b0 = CLOSED -> _failure_count b0 = 0%Z ->
  fails f1 -> fails f2 -> fails f3 -> 0 < l3 ->
  let timeout := recovery_timeout b0 in
  let r1 := call f1 n1 l1 b0 w0 in
  let r2 := call f2 n2 l2 (breaker_of r1) (world_of r1) in
  let r3 := call f3 n3 l3 (breaker_of r2) (world_of r2) in
  let b3 := breaker_of r3 in
  _state b3 = OPEN /\ failure_count b3 = 3%Z
  /\ (forall now, now - l3 < timeout ->
        fst (state now b3) = OPEN
        /\ forall (fn : W -> (A + E) * W) (later : Q) (w : W),
             call fn now later b3 w
             = (CircuitBreakerOpenError
                  ("Circuit breaker '" ++ name b0 ++ "' is OPEN (3 consecutive failures)")%string,
                b3, w))
  /\ (forall now, timeout <= now - l3 ->
        fst (state now b3) = HALF_OPEN
        /\ (forall (b : t) (now' : Q),
              (b = snd (state now b3) \/ (b = b3 /\ now' = now)) ->
              (forall (fn : W -> (A + E) * W) (later : Q) (w : W),
                 succeeds fn ->
                 _state (breaker_of (call fn now' later b w)) = CLOSED
                 /\ failure_count (breaker_of (call fn now' later b w)) = 0%Z)
              /\ (forall (fn : W -> (A + E) * W) (later : Q) (w : W),
                    fails fn ->
                    _state (breaker_of (call fn now' later b w)) = OPEN))).
Proof.
  destruct b0 as [threshold timeout name st count last]. simpl.
  intros -> -> -> H1 H2 H3 Hpos.
  set (r1 := call f1 n1 l1 (mk 3 timeout name CLOSED 0 last) w0).
  set (r2 := call f2 n2 l2 (breaker_of r1) (world_of r1)).
  set (r3 := call f3 n3 l3 (breaker_of r2) (world_of r2)).
  set (b3 := breaker_of r3).
  assert (E3 : b3 = mk 3 timeout name OPEN 3 l3).
  { unfold b3, r3, r2, r1.
    rewrite (call_closed_failure f1 n1 l1 (mk 3 timeout name CLOSED 0 last) w0 H1 eq_refl).
    change (_on_failure l1 (mk 3 timeout name CLOSED 0 last))
      with (mk 3 timeout name CLOSED 1 l1).
    rewrite (call_closed_failure f2 n2 l2 (mk 3 timeout name CLOSED 1 l1) _ H2 eq_refl).
    change (_on_failure l2 (mk 3 timeout name CLOSED 1 l1))
      with (mk 3 timeout name CLOSED 2 l2).
    rewrite (call_closed_failure f3 n3 l3 (mk 3 timeout name CLOSED 2 l2) _ H3 eq_refl).
    reflexivity. }
  rewrite E3. split; [reflexivity|]. split; [reflexivity|]. split.
  - intros now Hnow.
    assert (Es : state now (mk 3 timeout name OPEN 3 l3)
                 = (OPEN, mk 3 timeout name OPEN 3 l3))
      by (apply state_open_early; [reflexivity|exact Hnow]).
    split; [now rewrite Es|].
    intros fn later w. unfold call. rewrite Es. reflexivity.
  - intros now Hnow.
    assert (Es : state now (mk 3 timeout name OPEN 3 l3)
                 = (HALF_OPEN, set_state HALF_OPEN (mk 3 timeout name OPEN 3 l3)))
      by (apply state_open_late; [reflexivity|exact Hpos|exact Hnow]).
    split; [now rewrite Es|].
    intros b now' Hb.
    assert (Eb : state now' b
                 = (HALF_OPEN, set_state HALF_OPEN (mk 3 timeout name OPEN 3 l3))).
    { destruct Hb as [->|[-> ->]]; [|exact Es].
      rewrite Es. simpl snd. apply state_when_not_open. discriminate. }
    split.
    + intros fn later w Hs. destruct (Hs w) as [result [w' Ef]].
      rewrite (call_passes_success fn now' later _ _ w w' HALF_OPEN result Eb);
        [split; reflexivity|discriminate|exact Ef].
    + intros fn later w Hf. destruct (Hf w) as [exc [w' Ef]].
      rewrite (call_passes_failure fn now' later _ _ w w' HALF_OPEN exc Eb);
        [reflexivity|discriminate|exact Ef].
Qed.

End CircuitBreakerProperties.

Lemma breaker_cycle_witness :
  let r1 := CircuitBreaker.call Samples.always_raises 1 2 (CircuitBreaker.init 3 (3 # 10) "llm") O in
  let r2 := CircuitBreaker.call Samples.always_raises 3 4
              (CircuitBreaker.breaker_of r1) (CircuitBreaker.world_of r1) in
  let r3 := CircuitBreaker.call Samples.always_raises 5 6
              (CircuitBreaker.breaker_of r2) (CircuitBreaker.world_of r2) in
  let b3 := CircuitBreaker.breaker_of r3 in
  CircuitBreaker._state b3 = CircuitBreaker.OPEN
  /\ CircuitBreaker.failure_count b3 = 3
  /\ CircuitBreaker._state
       (CircuitBreaker.breaker_of (CircuitBreaker.call Samples.always_returns 7 8 b3 3%nat))
     = CircuitBreaker.CLOSED.
Proof.
  intros r1 r2 r3 b3.
  assert (Hf : CircuitBreaker.fails Samples.always_raises).
  { intros w. exists "timeout"%string, (S w). reflexivity. }
  assert (Hs : CircuitBreaker.succeeds Samples.always_returns).
  { intros w. exists 42%nat, (S w). reflexivity. }
  destruct (breaker_cycle (CircuitBreaker.init 3 (3 # 10) "llm") Samples.always_raises
              Samples.always_raises Samples.always_raises 1 2 3 4 5 6 O
              eq_refl eq_refl eq_refl Hf Hf Hf eq_refl) as [Ho [Hc [_ Hlate]]].
  split; [exact Ho|]. split; [exact Hc|].
  assert (Hdue : (3 # 10 <= 7 - 6)%Q) by (unfold Qle; simpl; lia).
  destruct (Hlate 7%Q Hdue) as [_ Hcalls].
  destruct (Hcalls b3 7%Q (or_intror (conj eq_refl eq_refl))) as [Hok _].
  exact (proj1 (Hok Samples.always_returns 8%Q 3%nat Hs)).
Defined.

(** ** Cross-project sharing *)

Section SharingProperties.

Import CrossProjectSharer.
Local Open Scope Q_scope.

Lemma integrity_error_false (r : insight) (rows : list insight) :
  (forall x, In x rows ->
     id x <> id r /\ ~ (memory_id x = memory_id r /\ target_project x = target_project r)) ->
  integrity_error r rows = false.
Proof.
  intros H. unfold integrity_error.
  destruct (List.existsb _ rows) eqn:E; [|reflexivity].
  apply List.existsb_exists in E as [x [Hx Hc]].
  destruct (H x Hx) as [Hid Hkey].
  apply orb_true_iff in Hc as [Hc|Hc].
  - apply String.eqb_eq in Hc. contradiction.
  - apply andb_true_iff in Hc as [Hm Ht].
    apply String.eqb_eq in Hm, Ht. tauto.
Qed.

Lemma integrity_error_true (r x : insight) (rows : list insight) :
  In x rows -> memory_id x = memory_id r -> target_project x = target_project r ->
  integrity_error r rows = true.
Proof.
  intros Hx Hm Ht. unfold integrity_error. apply List.existsb_exists.
  exists x. split; [exact Hx|].
  rewrite Hm, Ht, !String.eqb_refl. apply orb_true_r.
Qed.

Lemma share_enabled (u1 u2 : string) (now : Z) (memory : gmap string string)
    (target : string) (rel : Q) (s : db) :
  is_sharing_enabled s target = true ->
  share u1 u2 now memory target rel s
  = if integrity_error (row_of u1 u2 now memory target rel) (shared_insights s)
    then (mkShareResult false None "duplicate", s)
    else (mkShareResult true (Some u1) "success",
          mkDb (shared_insights s ++ [row_of u1 u2 now memory target rel])%list
            (project_sharing_config s)).
Proof. intros H. unfold share. rewrite H. reflexivity. Qed.

(** C7: for a memory dict whose ['id'] is [mid] and any target project:
    with sharing disabled for the target, [share] returns
    [{shared: False, reason: "sharing_disabled"}] and leaves the tables as
    they were; a target with no configuration row has sharing enabled; with
    sharing enabled, no row yet for [(mid, target)] and an unused insight id,
    [share] returns [{shared: True, id, reason: "success"}] and appends the
    row; and after any share that returned [shared: True], a share of a memory
    with the same id to the same target returns
    [{shared: False, reason: "duplicate"}] and leaves the tables, hence the
    stored row, as they were. *)
Theorem share_contract (s : db) (memory : gmap string string) (mid target : string)
    (rel : Q) (u1 u2 : string) (now : Z) :
  memory !! "id"%string = Some mid ->
  (is_sharing_enabled s target = false ->
   share u1 u2 now memory target rel s = (mkShareResult false None "sharing_disabled", s))
  /\ (project_sharing_config s !! target = None -> is_sharing_enabled s target = true)
  /\ (is_sharing_enabled s target = true ->
      rows_for s mid target = [] ->
      (forall x, In x (shared_insights s) -> id x <> u1) ->
      share u1 u2 now memory target rel s
      = (mkShareResult true (Some u1) "success",
         mkDb (shared_insights s ++ [row_of u1 u2 now memory target rel])%list
           (project_sharing_config s))
      /\ memory_id (row_of u1 u2 now memory target rel) = mid)
  /\ (forall r s', share u1 u2 now memory target rel s = (r, s') ->
      shared r = true ->
      reason r = "success"%string
      /\ forall (memory' : gmap string string) (u1' u2' : string) (now' : Z) (rel' : Q),
           memory' !! "id"%string = Some mid ->
           share u1' u2' now' memory' target rel' s'
           = (mkShareResult false None "duplicate", s')).
Proof.
  intros Hid. split; [|split; [|split]].
  - intros Hoff. unfold share. rewrite Hoff. reflexivity.
  - intros Hnone. unfold is_sharing_enabled. rewrite Hnone. reflexivity.
  - intros Hon Hnew Hfresh. rewrite share_enabled by exact Hon.
    assert (Em : memory_id (row_of u1 u2 now memory target rel) = mid).
    { unfold row_of. simpl. rewrite Hid. reflexivity. }
    rewrite integrity_error_false; [split; [reflexivity|exact Em]|].
    intros x Hx. split; [apply Hfresh, Hx|].
    rewrite Em. simpl. intros [Hm Ht].
    assert (Hin : In x (rows_for s mid target)).
    { unfold rows_for. apply List.filter_In. split; [exact Hx|].
      rewrite Hm, Ht, !String.eqb_refl. reflexivity. }
    rewrite Hnew in Hin. destruct Hin.
  - intros r s' Hshare Hr.
    destruct (is_sharing_enabled s target) eqn:Hon.
    + rewrite share_enabled in Hshare by exact Hon.
      destruct (integrity_error _ (shared_insights s)) eqn:Herr;
        injection Hshare as <- <-; [discriminate Hr|].
      split; [reflexivity|].
      intros memory' u1' u2' now' rel' Hid'.
      rewrite share_enabled by exact Hon.
      rewrite (integrity_error_true _ (row_of u1 u2 now memory target rel)).
      * reflexivity.
      * simpl. apply List.in_or_app. right. now left.
      * unfold row_of. simpl. rewrite Hid, Hid'. reflexivity.
      * reflexivity.
    + unfold share in Hshare. rewrite Hon in Hshare. simpl in Hshare.
      injection Hshare as <- <-. discriminate Hr.
Qed.

Lemma share_contract_witness :
  share "11111111-aaaa" "22222222-aaaa" 1700000000 Samples.memory_with_id "beta" (8 # 10)
    Samples.no_sharing_yet
  = (mkShareResult true (Some "11111111-aaaa"%string) "success",
     mkDb [row_of "11111111-aaaa" "22222222-aaaa" 1700000000 Samples.memory_with_id
             "beta" (8 # 10)] ∅).
Proof.
  apply (share_contract Samples.no_sharing_yet Samples.memory_with_id "mem-001" "beta"
           (8 # 10) "11111111-aaaa" "22222222-aaaa" 1700000000).
  - reflexivity.
  - reflexivity.
  - reflexivity.
  - intros x [].
Defined.


Lemma share_repeatedly_fresh
    (draws : list (string * string * Z)) (memory : gmap string string)
    (target : string) (rel : Q) (s : db) :
  memory !! "id"%string = None ->
  is_sharing_enabled s target = true ->
  List.NoDup (List.map (fun d => fst (fst d)) draws) ->
  List.NoDup (List.map (fun d => snd (fst d)) draws) ->
  unused draws s ->
  fst (share_repeatedly draws memory target rel s)
  = List.map (fun d => mkShareResult true (Some (fst (fst d))) "success") draws
  /\ shared_insights (snd (share_repeatedly draws memory target rel s))
     = (shared_insights s
        ++ List.map (fun d => row_of (fst (fst d)) (snd (fst d)) (snd d) memory target rel)
             draws)%list.
Proof.
  intros Hid. revert s. induction draws as [|[[u1 u2] now] draws IH];
    intros s Hon Hn1 Hn2 Hun.
  - simpl. rewrite List.app_nil_r. auto.
  - cbn [share_repeatedly].
    assert (Hshare : share u1 u2 now memory target rel s
                     = (mkShareResult true (Some u1) "success",
                        mkDb (shared_insights s ++ [row_of u1 u2 now memory target rel])%list
                          (project_sharing_config s))).
    { rewrite share_enabled by exact Hon. rewrite integrity_error_false; [reflexivity|].
      intros x Hx. destruct (Hun u1 u2 now x (or_introl eq_refl) Hx) as [Hi Hm].
      split; [exact Hi|]. unfold row_of. simpl. rewrite Hid. simpl. tauto. }
    rewrite Hshare.
    inversion Hn1 as [|? ? Hnot1 Hn1']. inversion Hn2 as [|? ? Hnot2 Hn2']. subst.
    specialize (IH (mkDb (shared_insights s ++ [row_of u1 u2 now memory target rel])%list
                      (project_sharing_config s))).
    destruct (share_repeatedly draws memory target rel _) as [results s'].
    destruct IH as [Er Es]; try assumption.
    + intros v1 v2 now' x Hd Hx. simpl in Hx. apply List.in_app_or in Hx as [Hx|[<-|[]]].
      * apply (Hun v1 v2 now'); [now right|exact Hx].
      * unfold row_of. simpl. rewrite Hid. simpl. split; intros <-.
        -- apply Hnot1. apply List.in_map_iff. exists (u1, v2, now'). now split.
        -- apply Hnot2. apply List.in_map_iff. exists (v1, u2, now'). now split.
    + simpl in *. split.
      * now rewrite Er.
      * rewrite Es. simpl. now rewrite <- List.app_assoc.
Qed.

(** C9: a memory dict without an ['id'] key is stored under the second UUID
    the call draws, so the uniqueness constraint on
    [(memory_id, target_project)] does not fire: with sharing enabled for the
    target and UUIDs that are pairwise distinct and new to the table (what
    [uuid.uuid4()] delivers), every one of any number of repeated shares of
    the memory to the same target returns
    [{shared: True, reason: "success"}], never ["duplicate"], and inserts a
    row of its own, whose [memory_id] is the UUID drawn for it. *)
Theorem share_without_id_never_duplicate
    (draws : list (string * string * Z)) (memory : gmap string string)
    (target : string) (rel : Q) (s : db) :
  memory !! "id"%string = None ->
  is_sharing_enabled s target = true ->
  List.NoDup (List.map (fun d => fst (fst d)) draws) ->
  List.NoDup (List.map (fun d => snd (fst d)) draws) ->
  unused draws s ->
  fst (share_repeatedly draws memory target rel s)
  = List.map (fun d => mkShareResult true (Some (fst (fst d))) "success") draws
  /\ shared_insights (snd (share_repeatedly draws memory target rel s))
     = (shared_insights s
        ++ List.map (fun d => row_of (fst (fst d)) (snd (fst d)) (snd d) memory target rel)
             draws)%list
  /\ List.map
       (fun d => memory_id (row_of (fst (fst d)) (snd (fst d)) (snd d) memory target rel))
       draws
     = List.map (fun d => snd (fst d)) draws.
Proof.
  intros Hid Hon Hn1 Hn2 Hun.
  destruct (share_repeatedly_fresh draws memory target rel s Hid Hon Hn1 Hn2 Hun) as [Er Es].
  split; [exact Er|]. split; [exact Es|].
  apply List.map_ext. intros d. unfold row_of. simpl. now rewrite Hid.
Qed.

Lemma share_without_id_never_duplicate_witness :
  fst (share_repeatedly Samples.three_draws Samples.memory_without_id "beta" (1 # 2)
         Samples.no_sharing_yet)
  = [ mkShareResult true (Some "11111111-aaaa"%string) "success";
      mkShareResult true (Some "11111111-bbbb"%string) "success";
      mkShareResult true (Some "11111111-cccc"%string) "success" ].
Proof.
  apply (share_without_id_never_duplicate Samples.three_draws
           Samples.memory_without_id "beta" (1 # 2) Samples.no_sharing_yet).
  - reflexivity.
  - reflexivity.
  - repeat constructor; simpl; intuition discriminate.
  - repeat constructor; simpl; intuition discriminate.
  - intros u1 u2 now x _ [].
Defined.

End SharingProperties.

(** ** Prospective triggers *)

Section TriggerProperties.

Import ProspectiveTriggers.

Lemma truthy_iff (s : string) : PyStr.truthy s = true <-> s <> ""%string.
Proof. destruct s; simpl; split; congruence. Qed.

Lemma lower_empty_iff (s : string) : PyStr.lower s = ""%string <-> s = ""%string.
Proof. destruct s; simpl; split; congruence. Qed.

Lemma leb_nonempty (a d : string) : PyStr.leb a d = true -> a <> ""%string -> d <> ""%string.
Proof. destruct a, d; simpl; congruence. Qed.

Lemma elem_of_lowered (x : string) (kws : option (list string)) :
  x ∈ lowered kws <-> exists k, In k (default [] kws) /\ PyStr.lower k = x.
Proof.
  unfold lowered. rewrite elem_of_list_to_set, list_elem_of_fmap.
  split; intros [k [H1 H2]]; exists k.
  - split; [now apply list_elem_of_In|now symmetry].
  - split; [now symmetry|now apply list_elem_of_In].
Qed.

Lemma keywords_overlap_iff (c : condition) (ctx : context) :
  _keywords_overlap c ctx = true <-> keywords_meet c ctx.
Proof.
  unfold _keywords_overlap, keywords_meet. split.
  - intros H.
    destruct (bool_decide (lowered (keywords c) = ∅) || bool_decide (lowered (ctx_keywords ctx) = ∅));
      [discriminate H|].
    apply bool_decide_eq_true in H. apply set_choose_L in H as [x Hx].
    apply elem_of_intersection in Hx as [H1 H2].
    apply elem_of_lowered in H1 as [k [Hk E1]]. apply elem_of_lowered in H2 as [k' [Hk' E2]].
    exists k, k'. repeat split; try assumption. congruence.
  - intros [k [k' [Hk [Hk' E]]]].
    assert (H1 : PyStr.lower k ∈ lowered (keywords c)) by (apply elem_of_lowered; eauto).
    assert (H2 : PyStr.lower k ∈ lowered (ctx_keywords ctx))
      by (apply elem_of_lowered; exists k'; split; [assumption|now symmetry]).
    rewrite (bool_decide_eq_false_2 _ (non_empty_inhabited_L _ _ H1)).
    rewrite (bool_decide_eq_false_2 _ (non_empty_inhabited_L _ _ H2)). simpl.
    apply bool_decide_eq_true.
    apply (non_empty_inhabited_L (PyStr.lower k)). now apply elem_of_intersection.
Qed.

Lemma trigger_matches_iff (t : ProspectiveTrigger) (ctx : context) :
  _trigger_matches t ctx = true <-> subsumes_nonempty t ctx.
Proof.
  unfold _trigger_matches, subsumes_nonempty.
  destruct (String.eqb_spec (trigger_type t) "time") as [Et|Et].
  { rewrite Et. split.
    - intros H. left. split; [reflexivity|].
      destruct (after_date (cond t)) as [a|]; [|discriminate H].
      destruct (current_date ctx) as [d|]; [|discriminate H].
      destruct (PyStr.truthy a) eqn:Ta; [|discriminate H].
      destruct (PyStr.truthy d); [|discriminate H]. simpl in H.
      exists a, d. repeat split; try assumption. now apply truthy_iff.
    - intros [[_ [a [d [Ea [Ed [Ha Hle]]]]]]|[[H _]|[H _]]]; try discriminate H.
      rewrite Ea, Ed.
      rewrite (proj2 (truthy_iff a) Ha), (proj2 (truthy_iff d) (leb_nonempty a d Hle Ha)).
      exact Hle. }
  destruct (String.eqb_spec (trigger_type t) "event") as [Ee|Ee].
  { rewrite Ee. split.
    - intros H. right. right. split; [reflexivity|].
      destruct (PyStr.truthy (default ""%string (project (cond t)))
                && PyStr.truthy (default ""%string (ctx_project ctx))
                && String.eqb (PyStr.lower (default ""%string (ctx_project ctx)))
                     (PyStr.lower (default ""%string (project (cond t))))) eqn:Ep.
      + left. apply andb_true_iff in Ep as [Ep Eq]. apply andb_true_iff in Ep as [Tp Tq].
        apply String.eqb_eq in Eq.
        destruct (project (cond t)) as [p|]; [|discriminate Tp].
        destruct (ctx_project ctx) as [q|]; [|discriminate Tq].
        exists p, q. simpl in *. repeat split; try reflexivity.
        * now apply truthy_iff.
        * now symmetry.
      + right. now apply keywords_overlap_iff.
    - intros [[H _]|[[H _]|[_ [[p [q [Ep [Eq [Hp Hl]]]]]|Hk]]]]; try discriminate H.
      + rewrite Ep, Eq. simpl.
        assert (Hq : q <> ""%string).
        { intros ->. apply Hp. apply lower_empty_iff. exact Hl. }
        rewrite (proj2 (truthy_iff p) Hp), (proj2 (truthy_iff q) Hq), Hl, String.eqb_refl.
        reflexivity.
      + apply keywords_overlap_iff in Hk. rewrite Hk.
        destruct (_ && _ && _); reflexivity. }
  destruct (String.eqb_spec (trigger_type t) "topic") as [Eo|Eo].
  { rewrite Eo. rewrite keywords_overlap_iff. split.
    - intros H. right. left. now split.
    - intros [[H _]|[[_ H]|[H _]]]; try discriminate H. exact H. }
  split; [discriminate|].
  intros [[H _]|[[H _]|[H _]]]; contradiction.
Qed.

(** C8 (as amended): the triggers [check_triggers] returns are exactly the
    stored triggers that are pending and whose condition subsumes the context,
    where a time trigger's [after_date] and an event trigger's [project] count
    only when they are not the empty string: a time trigger with a non-empty
    [after_date] iff the context has a [current_date] that is not before it;
    a topic trigger iff one of its keywords is among the context keywords,
    case aside; an event trigger iff its non-empty project is the context
    project, case aside, or its keywords overlap the context keywords. *)
Theorem check_triggers_returns_subsuming (table : list ProspectiveTrigger)
    (ctx : context) (t : ProspectiveTrigger) :
  In t (check_triggers table ctx)
  <-> In t table /\ status t = "pending"%string /\ subsumes_nonempty t ctx.
Proof.
  unfold check_triggers. rewrite !List.filter_In, trigger_matches_iff.
  rewrite String.eqb_eq. tauto.
Qed.

Lemma check_triggers_returns_subsuming_witness :
  In Samples.dated_trigger (check_triggers [Samples.dated_trigger] Samples.later_context).
Proof.
  apply (proj2 (check_triggers_returns_subsuming [Samples.dated_trigger]
                  Samples.later_context Samples.dated_trigger)).
  split; [now left|]. split; [reflexivity|].
  left. split; [reflexivity|].
  exists "2026-03-01"%string, "2026-03-02"%string.
  repeat split. discriminate.
Defined.

(** C8, the claim as stated fails: a pending event trigger whose condition has
    the project [""] and the keyword "deploy", checked against a context whose
    project is [""] and whose keyword is "cooking", has the context's project,
    yet is not returned: the projects are compared only when both are
    non-empty. *)
Lemma check_triggers_skips_empty_project :
  In Samples.unnamed_project_trigger [Samples.unnamed_project_trigger]
  /\ status Samples.unnamed_project_trigger = "pending"%string
  /\ subsumes Samples.unnamed_project_trigger Samples.unnamed_project_context
  /\ ~ In Samples.unnamed_project_trigger
         (check_triggers [Samples.unnamed_project_trigger] Samples.unnamed_project_context).
Proof.
  split; [now left|]. split; [reflexivity|]. split.
  - right. right. split; [reflexivity|]. left.
    exists ""%string, ""%string. repeat split.
  - assert (E : check_triggers [Samples.unnamed_project_trigger]
                  Samples.unnamed_project_context = []) by (vm_compute; reflexivity).
    rewrite E. intros [].
Qed.

End TriggerProperties.

(** ** Vector store *)

Section VectorStoreProperties.

Import VectorStore.

Lemma insert_sorted_perm {X : Type} (before : X -> X -> bool) (x : X) (l : list X) :
  Permutation (Sql.insert_sorted before x l) (x :: l).
Proof.
  induction l as [|y l IH]; simpl; [reflexivity|].
  destruct (before x y); [reflexivity|].
  rewrite IH. apply perm_swap.
Qed.

Lemma order_by_perm {X : Type} (before : X -> X -> bool) (l : list X) :
  Permutation (Sql.order_by before l) l.
Proof.
  induction l as [|x l IH]; simpl; [reflexivity|].
  rewrite insert_sorted_perm. now constructor.
Qed.

Lemma collect_remaining_spec (hash : string) (ix : IndexFlatIP) (items : list (string * nat)) :
  (forall h pos, In (h, pos) items -> (pos < ntotal ix)%nat) ->
  exists remaining,
    collect_remaining hash ix items = Some remaining
    /\ List.map fst remaining
       = List.filter (fun h => negb (String.eqb h hash)) (List.map fst items)
    /\ List.Forall (fun hv => In (snd hv) (xb ix)) remaining.
Proof.
  induction items as [|[h pos] items IH]; intros Hpos; simpl.
  - exists []. repeat split. constructor.
  - destruct IH as [kept [Ek [Ef Ex]]].
    { intros h' pos' H. apply (Hpos h' pos'). now right. }
    destruct (String.eqb h hash); simpl.
    + exists kept. auto.
    + assert (Hlt : (pos < ntotal ix)%nat) by (apply (Hpos h pos); now left).
      unfold reconstruct. destruct (List.nth_error (xb ix) pos) as [vec|] eqn:En.
      * rewrite Ek. exists ((h, vec) :: kept). simpl. rewrite Ef.
        repeat split. constructor; [|exact Ex]. simpl. eapply List.nth_error_In, En.
      * apply List.nth_error_None in En. unfold ntotal in Hlt. lia.
Qed.

Lemma rebuild_spec (remaining : list (string * vector)) (s : t) :
  List.Forall (fun hv => List.length (snd hv) = d (_index s)) remaining ->
  List.NoDup (List.map fst remaining) ->
  (forall h, In h (List.map fst remaining) -> _hash_to_pos s !! h = None) ->
  exists s',
    rebuild remaining s = (Ok tt, s')
    /\ xb (_index s') = (xb (_index s) ++ List.map snd remaining)%list
    /\ d (_index s') = d (_index s)
    /\ dimension s' = dimension s
    /\ _metadata s' = _metadata s
    /\ index_file s' = index_file s
    /\ meta_file s' = meta_file s
    /\ size (_hash_to_pos s') = (size (_hash_to_pos s) + List.length remaining)%nat
    /\ (forall h pos, _hash_to_pos s' !! h = Some pos ->
          _hash_to_pos s !! h = Some pos
          \/ (In h (List.map fst remaining) /\ (pos < ntotal (_index s'))%nat)).
Proof.
  revert s. induction remaining as [|[h vec] rest IH]; intros s Hlen Hnd Hnew.
  - exists s. simpl. rewrite List.app_nil_r, Nat.add_0_r. repeat split; auto.
  - inversion Hlen as [|? ? Hv Hlen']. inversion Hnd as [|? ? Hnot Hnd']. subst.
    simpl in Hv. simpl rebuild. unfold index_add. rewrite Hv, Nat.eqb_refl.
    set (s1 := with_memory _ _ _ _ s).
    destruct (IH s1) as [s' [Er [Exb [Ed [Edim [Emd [Eif [Emf [Esz Hlook]]]]]]]]].
    { exact Hlen'. }
    { exact Hnd'. }
    { intros h' Hh'. unfold s1. simpl. rewrite lookup_insert_ne.
      - apply Hnew. now right.
      - intros ->. contradiction. }
    exists s'. split; [exact Er|].
    assert (Hh : _hash_to_pos s !! h = None) by (apply Hnew; now left).
    split; [rewrite Exb; unfold s1; simpl; now rewrite <- List.app_assoc|].
    split; [exact Ed|]. split; [exact Edim|]. split; [exact Emd|].
    split; [exact Eif|]. split; [exact Emf|]. split.
    + rewrite Esz. unfold s1. simpl. rewrite map_size_insert_None by exact Hh. lia.
    + intros k pos Hk. destruct (Hlook k pos Hk) as [Hold|[Hin Hlt]].
      * unfold s1 in Hold. simpl in Hold.
        destruct (decide (h = k)) as [->|Hne].
        -- rewrite lookup_insert_eq in Hold. injection Hold as <-.
           right. split; [now left|].
           unfold ntotal. rewrite Exb. unfold s1. simpl.
           rewrite !List.length_app. simpl. lia.
        -- rewrite lookup_insert_ne in Hold by exact Hne. now left.
      * right. split; [now right|exact Hlt].
Qed.

Lemma saved_save (s : t) : saved (_save s).
Proof. split; reflexivity. Qed.

Lemma remove_spec (hash : string) (s : t) :
  consistent s ->
  exists s',
    _remove_from_index hash s = (Ok tt, s')
    /\ consistent s'
    /\ _hash_to_pos s' !! hash = None
    /\ index_file s' = index_file s /\ meta_file s' = meta_file s
    /\ dimension s' = dimension s
    /\ (forall v, In v (xb (_index s')) -> In v (xb (_index s))).
Proof.
  intros [Hsz [Hpos [Hd Hlen]]]. unfold _remove_from_index.
  destruct (_hash_to_pos s !! hash) as [p|] eqn:Eh.
  2:{ exists s. rewrite Eh. repeat split; auto. }
  set (items := Sql.order_by by_position (map_to_list (_hash_to_pos s))).
  assert (Hperm : Permutation items (map_to_list (_hash_to_pos s)))
    by apply order_by_perm.
  destruct (collect_remaining_spec hash (_index s) items) as [remaining [Ec [Ef Ex]]].
  { intros h pos Hin. apply (Hpos h). apply elem_of_map_to_list.
    rewrite <- Hperm. now apply list_elem_of_In. }
  rewrite Ec.
  set (s0 := with_memory ∅ ∅ (_metadata s) (new_index (dimension s)) s).
  destruct (rebuild_spec remaining s0)
    as [s' [Er [Exb [Ed [Edim [Emd [Eif [Emf [Esz Hlook]]]]]]]]].
  { eapply List.Forall_impl; [|exact Ex]. simpl. intros [h v] Hin. simpl in *.
    rewrite List.Forall_forall in Hlen. now apply Hlen. }
  { rewrite Ef. apply List.NoDup_filter. apply NoDup_ListNoDup.
    change (List.map fst items) with (items.*1).
    rewrite Hperm. apply NoDup_fst_map_to_list. }
  { intros h _. apply lookup_empty. }
  rewrite Er. eexists. split; [reflexivity|].
  unfold consistent, ntotal. simpl. rewrite Exb, Ed, Edim, Esz, Eif, Emf. simpl.
  rewrite map_size_empty, List.length_map. simpl.
  split; [|split; [|repeat split; auto]].
  - split; [reflexivity|]. split; [|split; [reflexivity|]].
    + intros h pos Hh. destruct (Hlook h pos Hh) as [Hold|[_ Hlt]].
      * simpl in Hold. rewrite lookup_empty in Hold. discriminate Hold.
      * unfold ntotal in Hlt. rewrite Exb in Hlt. simpl in Hlt.
        now rewrite List.length_map in Hlt.
    + apply List.Forall_forall. intros v Hv. apply List.in_map_iff in Hv as [[h v'] [<- Hin]].
      rewrite List.Forall_forall in Ex, Hlen. apply Hlen. now apply (Ex (h, v')).
  - destruct (_hash_to_pos s' !! hash) as [pos|] eqn:Eh'; [|reflexivity].
    destruct (Hlook hash pos Eh') as [Hold|[Hin _]].
    + simpl in Hold. rewrite lookup_empty in Hold. discriminate Hold.
    + rewrite Ef in Hin. apply List.filter_In in Hin as [_ Hne].
      rewrite String.eqb_refl in Hne. discriminate Hne.
  - intros v Hv. apply List.in_map_iff in Hv as [[h v'] [<- Hin]].
    rewrite List.Forall_forall in Ex. now apply (Ex (h, v')).
Qed.


Lemma normalize_length (v : vector) : List.length (_normalize v) = List.length v.
Proof.
  unfold _normalize, astype_float32.
  destruct (Float.ltb _ _); rewrite ?List.length_map; reflexivity.
Qed.

Lemma kept_refl (s : t) : consistent s -> kept s s.
Proof. intros H. split; [exact H|]. split; [reflexivity|]. intros v Hv. now left. Qed.

Lemma kept_trans (s1 s2 s3 : t) : kept s1 s2 -> kept s2 s3 -> kept s1 s3.
Proof.
  intros [_ [D1 V1]] [C2 [D2 V2]]. split; [exact C2|]. split; [congruence|].
  intros v Hv. destruct (V2 v Hv) as [H|H]; [now apply V1|now right].
Qed.

Lemma put_spec (h : string) (e : vector) (md : option metadata) (s : t) :
  consistent s ->
  exists r s',
    put h e md s = (r, s')
    /\ kept s s'
    /\ index_file s' = index_file s /\ meta_file s' = meta_file s
    /\ (List.length e = dimension s -> r = Ok tt).
Proof.
  intros Hc. unfold put.
  assert (H1 : exists s1,
             match _hash_to_pos s !! h with
             | Some _ => _remove_from_index h s
             | None => (Ok tt, s)
             end = (Ok tt, s1)
             /\ consistent s1 /\ _hash_to_pos s1 !! h = None
             /\ index_file s1 = index_file s /\ meta_file s1 = meta_file s
             /\ dimension s1 = dimension s
             /\ (forall v, In v (xb (_index s1)) -> In v (xb (_index s)))).
  { destruct (_hash_to_pos s !! h) eqn:Eh.
    - apply remove_spec, Hc.
    - exists s. repeat split; auto; apply Hc. }
  destruct H1 as [s1 [E1 [[Hsz [Hpos [Hd Hlen]]] [Hnone [Eif [Emf [Edim Hsub]]]]]]].
  rewrite E1. unfold index_add. rewrite normalize_length, Hd, Edim.
  destruct (Nat.eqb (List.length e) (dimension s)) eqn:El.
  - apply Nat.eqb_eq in El. eexists _, _. split; [reflexivity|].
    split; [|simpl; auto].
    split; [|split; [exact Edim|]].
    + unfold consistent, ntotal. simpl. rewrite List.length_app. simpl.
      split; [rewrite map_size_insert_None by exact Hnone; unfold ntotal in Hsz; lia|].
      split; [|split; [congruence|]].
      * intros k pos Hk. destruct (decide (h = k)) as [->|Hne].
        -- rewrite lookup_insert_eq in Hk. injection Hk as <-. unfold ntotal. lia.
        -- rewrite lookup_insert_ne in Hk by exact Hne.
           apply Hpos in Hk. unfold ntotal in Hk. lia.
      * apply List.Forall_app. split; [exact Hlen|].
        constructor; [|constructor]. rewrite normalize_length. congruence.
    + simpl. intros v Hv. apply List.in_app_or in Hv as [Hv|[<-|[]]].
      * left. now apply Hsub.
      * right. now exists e.
  - eexists _, _. split; [reflexivity|].
    split; [|split; [exact Eif|split; [exact Emf|]]].
    + split; [repeat split; assumption|]. split; [exact Edim|].
      intros v Hv. left. now apply Hsub.
    + intros Hl. rewrite Hl, Nat.eqb_refl in El. discriminate El.
Qed.

Lemma store_embedding_spec (h : string) (e : vector) (md : option metadata) (s : t) :
  consistent s ->
  exists r s',
    store_embedding h e md s = (r, s')
    /\ kept s s'
    /\ (r = Ok tt -> saved s')
    /\ (List.length e = dimension s -> r = Ok tt).
Proof.
  intros Hc. unfold store_embedding.
  destruct (put_spec h e md s Hc) as [r [s' [Ep [Hk [_ [_ Hok]]]]]].
  rewrite Ep. destruct r as [[]|exc].
  - eexists _, _. split; [reflexivity|]. split; [exact Hk|].
    split; [intros _; apply saved_save|auto].
  - eexists _, _. split; [reflexivity|]. split; [exact Hk|].
    split; [discriminate|exact Hok].
Qed.

Lemma put_all_spec (items : list (string * vector * option metadata)) (s : t) :
  consistent s ->
  exists r s', put_all items s = (r, s') /\ kept s s'.
Proof.
  revert s. induction items as [|[[h e] md] items IH]; intros s Hc; simpl.
  - eexists _, _. split; [reflexivity|]. now apply kept_refl.
  - destruct (put_spec h e md s Hc) as [r [s1 [Ep [Hk _]]]]. rewrite Ep.
    destruct r as [[]|exc].
    + destruct (IH s1 (proj1 Hk)) as [r' [s' [Ea Hk']]].
      exists r', s'. split; [exact Ea|]. eapply kept_trans; eassumption.
    + eexists _, _. split; [reflexivity|exact Hk].
Qed.

Lemma batch_store_spec (items : list (string * vector * option metadata)) (s : t) :
  consistent s ->
  exists r s',
    batch_store items s = (r, s')
    /\ kept s s'
    /\ (r = Ok tt -> items <> [] -> saved s').
Proof.
  intros Hc. unfold batch_store. destruct items as [|item items].
  - eexists _, _. split; [reflexivity|]. split; [now apply kept_refl|]. congruence.
  - destruct (put_all_spec (item :: items) s Hc) as [r [s' [Ea Hk]]]. rewrite Ea.
    destruct r as [[]|exc]; eexists _, _; (split; [reflexivity|]); (split; [exact Hk|]).
    + intros _ _. apply saved_save.
    + discriminate.
Qed.

Lemma delete_embedding_spec (h : string) (s : t) :
  consistent s ->
  exists s',
    delete_embedding h s = (Ok tt, s')
    /\ kept s s'
    /\ (is_Some (_hash_to_pos s !! h) -> saved s').
Proof.
  intros Hc. unfold delete_embedding. destruct (_hash_to_pos s !! h) eqn:Eh.
  - destruct (remove_spec h s Hc) as [s' [Er [Hc' [_ [_ [_ [Edim Hsub]]]]]]].
    rewrite Er. eexists. split; [reflexivity|]. split.
    + split; [exact Hc'|]. split; [exact Edim|]. intros v Hv. left. now apply Hsub.
    + intros _. split; reflexivity.
  - exists s. split; [reflexivity|]. split; [now apply kept_refl|].
    intros [x Hx]. discriminate Hx.
Qed.

Lemma step_spec (o : op) (s : t) :
  consistent s ->
  exists r s',
    step o s = (r, s') /\ kept s s' /\ (r = Ok tt -> mutates o s -> saved s').
Proof.
  intros Hc. destruct o as [h e md|items|h]; simpl.
  - destruct (store_embedding_spec h e md s Hc) as [r [s' [E [Hk [Hs _]]]]].
    exists r, s'. auto.
  - destruct (batch_store_spec items s Hc) as [r [s' [E [Hk Hs]]]].
    exists r, s'. auto.
  - destruct (delete_embedding_spec h s Hc) as [s' [E [Hk Hs]]].
    exists (Ok tt), s'. auto.
Qed.

Lemma run_kept (ops : list op) (s : t) : consistent s -> kept s (run ops s).
Proof.
  revert s. induction ops as [|o ops IH]; intros s Hc; simpl.
  - now apply kept_refl.
  - destruct (step_spec o s Hc) as [r [s' [E [Hk _]]]].
    unfold run in *. simpl. rewrite E. simpl.
    eapply kept_trans; [exact Hk|]. apply IH, Hk.
Qed.

(** C6: on a consistent store (a new one is), after every sequence of
    [store_embedding], [batch_store] and [delete_embedding] calls, returned or
    raised, [count()] is the number of entries of the hash-to-position map and
    that is the index's [ntotal]; and the next such call, when it returns and
    is a mutation (any store, a batch that is not empty, the deletion of a hash
    that is present), has written both the index file and the JSON sidecar
    from the object it leaves. *)
Theorem count_matches_index_and_files_written (ops : list op) (s : t) :
  consistent s ->
  count (run ops s) = size (_hash_to_pos (run ops s))
  /\ size (_hash_to_pos (run ops s)) = ntotal (_index (run ops s))
  /\ forall (o : op) (s' : t),
       step o (run ops s) = (Ok tt, s') -> mutates o (run ops s) -> saved s'.
Proof.
  intros Hc. destruct (run_kept ops s Hc) as [Hc' _].
  split; [reflexivity|]. split; [apply Hc'|].
  intros o s' Hstep Hmut.
  destruct (step_spec o (run ops s) Hc') as [r [s'' [E [_ Hs]]]].
  rewrite Hstep in E. injection E as <- <-. now apply Hs.
Qed.


Lemma init_consistent (dim : nat) : consistent (init dim None None).
Proof.
  unfold consistent, init, _load, ntotal. simpl.
  split; [apply map_size_empty|]. split; [|split; [reflexivity|constructor]].
  intros h pos H. rewrite lookup_empty in H. discriminate H.
Qed.

Lemma count_matches_index_and_files_written_witness :
  count (run Samples.three_calls Samples.new_store)
  = size (_hash_to_pos (run Samples.three_calls Samples.new_store))
  /\ size (_hash_to_pos (run Samples.three_calls Samples.new_store))
     = ntotal (_index (run Samples.three_calls Samples.new_store)).
Proof.
  destruct (count_matches_index_and_files_written Samples.three_calls Samples.new_store
              (init_consistent 3)) as [H1 [H2 _]].
  split; [exact H1|exact H2].
Defined.

(** *** Rounding never invents a NaN *)

Lemma shr_1_nonneg (mrs : shr_record) :
  (0 <= shr_m mrs)%Z -> (0 <= shr_m (shr_1 mrs))%Z.
Proof.
  destruct mrs as [m r sticky]. destruct m as [|[p|p|]|[p|p|]]; simpl; lia.
Qed.

Lemma iter_shr_1_nonneg (p : positive) (mrs : shr_record) :
  (0 <= shr_m mrs)%Z -> (0 <= shr_m (SpecFloat.iter_pos shr_1 p mrs))%Z.
Proof.
  revert mrs. induction p as [p IH|p IH|]; intros mrs H; simpl.
  - apply IH, IH, shr_1_nonneg, H.
  - apply IH, IH, H.
  - apply shr_1_nonneg, H.
Qed.

Lemma shr_fexp_nonneg (prec emax m e : Z) (l : location) :
  (0 <= m)%Z -> (0 <= shr_m (fst (shr_fexp prec emax m e l)))%Z.
Proof.
  intros H. unfold shr_fexp, shr.
  assert (H0 : (0 <= shr_m (shr_record_of_loc m l))%Z)
    by (destruct l as [|[| |]]; exact H).
  destruct (fexp prec emax (Zdigits2 m + e) - e)%Z; simpl;
    [exact H0|now apply iter_shr_1_nonneg|exact H0].
Qed.

Lemma round_nearest_even_nonneg (m : Z) (l : location) :
  (0 <= m)%Z -> (0 <= round_nearest_even m l)%Z.
Proof.
  intros H. unfold round_nearest_even. destruct l as [|[| |]]; try lia.
  destruct (Z.even m); lia.
Qed.

Lemma binary_round_aux_not_nan (prec emax : Z) (sx : bool) (m e : Z) (l : location) :
  (0 <= m)%Z -> Float.is_nan (binary_round_aux prec emax sx m e l) = false.
Proof.
  intros H. unfold binary_round_aux.
  pose proof (shr_fexp_nonneg prec emax m e l H) as H1.
  destruct (shr_fexp prec emax m e l) as [mrs' e']. cbn [fst] in H1.
  pose proof (shr_fexp_nonneg prec emax
                (round_nearest_even (shr_m mrs') (loc_of_shr_record mrs')) e' loc_Exact
                (round_nearest_even_nonneg _ _ H1)) as H2.
  destruct (shr_fexp prec emax _ e' loc_Exact) as [mrs'' e'']. cbn [fst] in H2.
  destruct (shr_m mrs''); [reflexivity| |lia].
  destruct (e'' <=? emax - prec)%Z; reflexivity.
Qed.

Lemma div_core_nonneg (prec emax : Z) (m1 m2 : positive) (e1 e2 : Z) :
  (0 <= fst (fst (SFdiv_core_binary prec emax (Z.pos m1) e1 (Z.pos m2) e2)))%Z.
Proof.
  unfold SFdiv_core_binary.
  set (shift := (e1 - e2 - _)%Z).
  set (m' := match shift with
             | Z0 => Z.pos m1
             | Zpos _ => Z.shiftl (Z.pos m1) shift
             | Zneg _ => 0%Z
             end).
  assert (Hm : (0 <= m')%Z).
  { unfold m'. destruct shift; try lia. apply Z.shiftl_nonneg. lia. }
  pose proof (Z_div_mod m' (Z.pos m2) eq_refl) as Hd.
  destruct (Z.div_eucl m' (Z.pos m2)) as [q r]. cbn [fst]. nia.
Qed.

(** A finite float divided by a float that is greater than zero is not NaN. *)
Lemma div_not_nan (x n : Float.float) :
  Float.is_finite x = true -> Float.ltb Float.zero n = true ->
  Float.is_nan (Float32.div x n) = false.
Proof.
  intros Hx Hn.
  destruct x as [sx|sx| |sx mx ex]; try discriminate Hx;
    destruct n as [sn|sn| |sn mn en]; try discriminate Hn; try reflexivity.
  unfold Float32.div, SFdiv.
  pose proof (div_core_nonneg 24 128 mx mn ex en) as Hq.
  destruct (SFdiv_core_binary 24 128 (Z.pos mx) ex (Z.pos mn) en) as [[mz ez] lz].
  cbn [fst] in Hq. now apply binary_round_aux_not_nan.
Qed.

Lemma leb_not_nan (a b : Float.float) : Float.leb a b = true -> Float.is_nan b = false.
Proof.
  destruct b; try reflexivity. destruct a; discriminate.
Qed.

(** *** The zero vector and the guard of [_normalize] *)

Lemma dot_all_zero (v : vector) : all_zero v -> dot v v = Float.zero.
Proof.
  unfold dot. intros H. induction H as [|x v Hx Hv IH]; [reflexivity|].
  cbn [List.combine List.fold_left fst snd].
  destruct x as [sx|sx| |sx mx ex]; try discriminate Hx.
  replace (Float32.add Float.zero (Float32.mul (S754_zero sx) (S754_zero sx)))
    with Float.zero by (destruct sx; reflexivity).
  exact IH.
Qed.

Lemma norm_all_zero (v : vector) : all_zero v -> norm v = Float.zero.
Proof. intros H. unfold norm. rewrite (dot_all_zero v H). reflexivity. Qed.

Lemma normalize_all_zero (v : vector) :
  all_zero (astype_float32 v) -> _normalize v = astype_float32 v.
Proof.
  intros H. unfold _normalize. rewrite (norm_all_zero _ H). reflexivity.
Qed.

Lemma normalize_nan_free (v : vector) :
  all_finite (astype_float32 v) -> nan_free (_normalize v).
Proof.
  intros H. unfold _normalize, nan_free.
  destruct (Float.ltb Float.zero (norm (astype_float32 v))) eqn:E.
  - apply List.Forall_map. eapply List.Forall_impl; [|exact H].
    intros x Hx. now apply div_not_nan.
  - eapply List.Forall_impl; [|exact H]. intros x Hx. now destruct x.
Qed.

Lemma all_zero_finite (v : vector) : all_zero v -> all_finite v.
Proof.
  intros H. eapply List.Forall_impl; [|exact H]. intros x Hx. now destruct x.
Qed.

(** *** What a call puts in the index *)

Lemma put_cleared (h : string) (s : t) :
  consistent s ->
  exists s1,
    match _hash_to_pos s !! h with
    | Some _ => _remove_from_index h s
    | None => (Ok tt, s)
    end = (Ok tt, s1)
    /\ consistent s1 /\ dimension s1 = dimension s
    /\ (forall v, In v (xb (_index s1)) -> In v (xb (_index s))).
Proof.
  intros Hc. destruct (_hash_to_pos s !! h) eqn:Eh.
  - destruct (remove_spec h s Hc) as [s1 [E [Hc1 [_ [_ [_ [Edim Hsub]]]]]]].
    exists s1. auto.
  - exists s. auto.
Qed.

Lemma put_vectors (h : string) (e : vector) (md : option metadata) (s : t) :
  consistent s ->
  (forall v, In v (xb (_index (snd (put h e md s)))) ->
     In v (xb (_index s)) \/ v = _normalize e)
  /\ (List.length e = dimension s ->
      fst (put h e md s) = Ok tt /\ In (_normalize e) (xb (_index (snd (put h e md s))))).
Proof.
  intros Hc. unfold put.
  destruct (put_cleared h s Hc) as [s1 [E1 [[_ [_ [Hd _]]] [Edim Hsub]]]].
  rewrite E1. unfold index_add. rewrite normalize_length, Hd, Edim.
  destruct (Nat.eqb (List.length e) (dimension s)) eqn:El; cbn [fst snd]; split.
  - simpl. intros v Hv. apply List.in_app_or in Hv as [Hv|[<-|[]]].
    + left. now apply Hsub.
    + now right.
  - intros _. split; [reflexivity|]. simpl. apply List.in_or_app. right. now left.
  - intros v Hv. left. now apply Hsub.
  - intros Hl. rewrite Hl, Nat.eqb_refl in El. discriminate El.
Qed.

Section IndexContents.

Variable P : vector -> Prop.

Lemma put_holds (h : string) (e : vector) (md : option metadata) (s : t) :
  consistent s -> List.Forall P (xb (_index s)) -> P (_normalize e) ->
  List.Forall P (xb (_index (snd (put h e md s)))).
Proof.
  intros Hc Hall He. apply List.Forall_forall. intros v Hv.
  destruct (proj1 (put_vectors h e md s Hc) v Hv) as [Hold| ->]; [|exact He].
  rewrite List.Forall_forall in Hall. now apply Hall.
Qed.

Lemma put_all_holds (items : list (string * vector * option metadata)) (s : t) :
  consistent s -> List.Forall P (xb (_index s)) ->
  (forall item, In item items -> P (_normalize (snd (fst item)))) ->
  List.Forall P (xb (_index (snd (put_all items s)))).
Proof.
  revert s. induction items as [|[[h e] md] items IH]; intros s Hc Hall Hin;
    cbn [put_all]; [exact Hall|].
  pose proof (put_holds h e md s Hc Hall (Hin _ (or_introl eq_refl))) as Hp.
  destruct (put_spec h e md s Hc) as [r [s1 [Ep [Hk _]]]].
  rewrite Ep in *. cbn [snd] in Hp. destruct r as [[]|exc]; [|exact Hp].
  apply IH; [apply Hk|exact Hp|]. intros item Hitem. apply Hin. now right.
Qed.

Lemma step_holds (o : op) (s : t) :
  consistent s -> List.Forall P (xb (_index s)) ->
  (forall e, In e (inputs o) -> P (_normalize e)) ->
  List.Forall P (xb (_index (snd (step o s)))).
Proof.
  intros Hc Hall Hin. destruct o as [h e md|items|h]; cbn [step inputs] in *.
  - unfold store_embedding.
    pose proof (put_holds h e md s Hc Hall (Hin e (or_introl eq_refl))) as Hp.
    destruct (put h e md s) as [[[]|exc] s1]; exact Hp.
  - unfold batch_store. destruct items as [|item items]; [exact Hall|].
    assert (Hp : List.Forall P (xb (_index (snd (put_all (item :: items) s))))).
    { apply put_all_holds; [exact Hc|exact Hall|]. intros it Hit. apply Hin.
      apply List.in_map_iff. exists it. now split. }
    destruct (put_all (item :: items) s) as [[[]|exc] s1]; exact Hp.
  - unfold delete_embedding. destruct (_hash_to_pos s !! h) eqn:Eh; [|exact Hall].
    destruct (remove_spec h s Hc) as [s1 [Er [_ [_ [_ [_ [_ Hsub]]]]]]].
    rewrite Er. cbn [snd _save with_memory _index].
    apply List.Forall_forall. intros v Hv. rewrite List.Forall_forall in Hall.
    now apply Hall, Hsub.
Qed.

Lemma run_holds (ops : list op) (s : t) :
  consistent s -> List.Forall P (xb (_index s)) ->
  (forall o e, In o ops -> In e (inputs o) -> P (_normalize e)) ->
  List.Forall P (xb (_index (run ops s))).
Proof.
  revert s. induction ops as [|o ops IH]; intros s Hc Hall Hin; [exact Hall|].
  unfold run in *. cbn [List.fold_left].
  destruct (step_spec o s Hc) as [r [s' [E [Hk _]]]].
  pose proof (step_holds o s Hc Hall (fun e He => Hin o e (or_introl eq_refl) He)) as Hs.
  rewrite E in *. cbn [snd] in *.
  apply IH; [apply Hk|exact Hs|]. intros o' e Ho He. apply (Hin o' e); [now right|exact He].
Qed.

End IndexContents.

Lemma store_embedding_stores (h : string) (e : vector) (md : option metadata) (s : t) :
  consistent s -> List.length e = dimension s ->
  exists s',
    store_embedding h e md s = (Ok tt, s') /\ In (_normalize e) (xb (_index s')).
Proof.
  intros Hc Hl. unfold store_embedding.
  destruct (proj2 (put_vectors h e md s Hc) Hl) as [Er Hin].
  destruct (put h e md s) as [r s1]. cbn [fst snd] in *. subst r.
  eexists. split; [reflexivity|exact Hin].
Qed.

Lemma collect_hits_not_nan (threshold : Float.float) (s : t)
    (found : list (Float.float * nat)) :
  List.Forall (fun h => Float.is_nan (similarity h) = false)
    (collect_hits threshold s found).
Proof.
  induction found as [|[score idx] found IH]; cbn [collect_hits]; [constructor|].
  destruct (Float.leb threshold (Float64.of_float32 score)) eqn:El; [|exact IH].
  destruct (_pos_to_hash s !! idx) as [hash_id|]; [|exact IH].
  destruct (PyStr.truthy hash_id); [|exact IH].
  constructor; [|exact IH]. cbn [similarity]. eapply leb_not_nan, El.
Qed.

Lemma Forall_order_by {X : Type} (Q : X -> Prop) (before : X -> X -> bool) (l : list X) :
  List.Forall Q l -> List.Forall Q (Sql.order_by before l).
Proof.
  rewrite !List.Forall_forall. intros H x Hx. apply H.
  eapply Permutation_in; [apply order_by_perm|exact Hx].
Qed.

Lemma find_similar_returns (q : vector) (top_k : nat) (threshold : Float.float) (s : t) :
  consistent s -> List.length q = dimension s -> (0 < top_k)%nat ->
  exists hits,
    find_similar q top_k threshold s = Ok hits
    /\ List.Forall (fun h => Float.is_nan (similarity h) = false) hits.
Proof.
  intros [_ [_ [Hd _]]] Hl Hk. unfold find_similar.
  destruct (Nat.eqb (ntotal (_index s)) 0) eqn:En.
  - exists []. split; [reflexivity|constructor].
  - apply Nat.eqb_neq in En.
    unfold index_search. rewrite normalize_length, Hl, Hd, Nat.eqb_refl.
    replace (Nat.eqb (Nat.min top_k (ntotal (_index s))) 0) with false
      by (symmetry; apply Nat.eqb_neq; lia).
    simpl. eexists. split; [reflexivity|].
    apply Forall_order_by, collect_hits_not_nan.
Qed.

(** C10 (as amended).  The components are numpy [float32] values, on which
    [0 / 0] is NaN.
    - A vector whose [float32] components are all zero has norm [0.0];
      [_normalize] returns it as it is, without dividing, and so without a
      NaN.
    - When the norm is greater than 0, also when it is an infinity,
      [_normalize] divides every component by it.
    - [_normalize] returns no NaN for a vector whose [float32] components
      are finite.
    - On a consistent store [store_embedding] of a zero vector of the store's
      dimension returns and the index then holds that zero vector.
    - [find_similar] with a query of the store's dimension, the zero vector
      included, returns, and no hit has a similarity that is NaN.
    - The index of a store that started empty holds no NaN as long as every
      vector given to [store_embedding] and [batch_store] had finite
      [float32] components. *)
Theorem normalize_guards_zero_norm :
  (forall v : vector,
     all_zero (astype_float32 v) ->
     norm (astype_float32 v) = Float.zero
     /\ _normalize v = astype_float32 v
     /\ nan_free (_normalize v))
  /\ (forall v : vector,
        Float.ltb Float.zero (norm (astype_float32 v)) = true ->
        _normalize v
        = List.map (fun x => Float32.div x (norm (astype_float32 v))) (astype_float32 v))
  /\ (forall v : vector, all_finite (astype_float32 v) -> nan_free (_normalize v))
  /\ (forall (s : t) (h : string) (v : vector) (md : option metadata),
        consistent s -> all_zero (astype_float32 v) -> List.length v = dimension s ->
        exists s',
          store_embedding h v md s = (Ok tt, s')
          /\ In (astype_float32 v) (xb (_index s')))
  /\ (forall (s : t) (q : vector) (top_k : nat) (threshold : Float.float),
        consistent s -> List.length q = dimension s -> (0 < top_k)%nat ->
        exists hits,
          find_similar q top_k threshold s = Ok hits
          /\ List.Forall (fun h => Float.is_nan (similarity h) = false) hits)
  /\ (forall (ops : list op) (dim : nat),
        (forall o e, In o ops -> In e (inputs o) -> all_finite (astype_float32 e)) ->
        List.Forall nan_free (xb (_index (run ops (init dim None None))))).
Proof.
  split; [|split; [|split; [exact normalize_nan_free|split; [|split]]]].
  - intros v Hz. split; [now apply norm_all_zero|]. split; [now apply normalize_all_zero|].
    now apply normalize_nan_free, all_zero_finite.
  - intros v Hpos. unfold _normalize. now rewrite Hpos.
  - intros s h v md Hc Hz Hl.
    destruct (store_embedding_stores h v md s Hc Hl) as [s' [E Hin]].
    exists s'. split; [exact E|]. now rewrite <- (normalize_all_zero v Hz).
  - intros s q top_k threshold. apply find_similar_returns.
  - intros ops dim Hin. apply run_holds; [apply init_consistent|constructor|].
    intros o e Ho He. apply normalize_nan_free. now apply (Hin o e).
Qed.

Lemma normalize_guards_zero_norm_witness :
  _normalize Samples.zero_vector = Samples.zero_vector
  /\ exists s',
       store_embedding "z" Samples.zero_vector None Samples.new_store = (Ok tt, s')
       /\ In Samples.zero_vector (xb (_index s')).
Proof.
  destruct normalize_guards_zero_norm as [Hn [_ [_ [Hs _]]]].
  assert (Hz : all_zero (astype_float32 Samples.zero_vector)) by (repeat constructor).
  split; [exact (proj1 (proj2 (Hn _ Hz)))|].
  exact (Hs Samples.new_store "z"%string Samples.zero_vector None (init_consistent 3) Hz
           eq_refl).
Defined.

(** C10, the claim as stated fails: the vector [1e39, 0, 0] is finite and not
    zero, but [1e39] is an infinity once cast to [float32]; the norm is that
    infinity, which is greater than 0, and the division gives
    [inf / inf = NaN].  [store_embedding] returns and the index of the new
    store then holds [NaN, 0, 0], whose norm is NaN: neither 1 nor 0. *)
Lemma normalize_overflow_stores_nan :
  all_finite Samples.huge_vector
  /\ _normalize Samples.huge_vector = [S754_nan; Float.zero; Float.zero]
  /\ (exists s',
        store_embedding "h" Samples.huge_vector None Samples.new_store = (Ok tt, s')
        /\ In [S754_nan; Float.zero; Float.zero] (xb (_index s')))
  /\ norm [S754_nan; Float.zero; Float.zero] = S754_nan
  /\ ~ nan_free (_normalize Samples.huge_vector).
Proof.
  assert (E : _normalize Samples.huge_vector = [S754_nan; Float.zero; Float.zero])
    by (vm_compute; reflexivity).
  split; [repeat constructor|]. split; [exact E|]. split; [|split].
  - destruct (store_embedding_stores "h" Samples.huge_vector None Samples.new_store
                (init_consistent 3) eq_refl) as [s' [Es Hin]].
    exists s'. split; [exact Es|]. now rewrite <- E.
  - vm_compute. reflexivity.
  - rewrite E. intros H. inversion H as [|? ? Hnan _]. discriminate Hnan.
Qed.

End VectorStoreProperties.
